(** * AI Maintenance Predictor: the dashboard's client logic

    A shallow embedding of [frontend/src/App.jsx]: the form handlers
    ([handleChange], [handleSubmit], [handleCsvUpload]), the asset registry
    they maintain, and the read-only views computed from it
    ([HealthSummaryView], [DetailedTableView]).

    JavaScript numbers are IEEE-754 binary64 values and are modelled by
    Rocq's primitive [float]; the integer-valued numbers that the code only
    counts or compares (one-hot flags, severity ranks, bucket counts) are
    [Z]. JavaScript strings are modelled by [string], read as sequences of
    code units below 256. React state is an explicit record that every
    handler takes and returns, together with the list of network requests
    the handler issued. *)

From Stdlib Require Import Floats ZArith Ascii String List Bool Lia.
From Stdlib Require Import Sorting.Sorted Sorting.Permutation.
From stdpp Require Import base option list gmap strings.

Local Open Scope string_scope.
Local Open Scope list_scope.
Local Open Scope Z_scope.

(** ** JavaScript values that the handlers pass around *)

(** What [get] in [handleCsvUpload] can return: [null] when the column is
    absent from the header, [undefined] when the data row is too short,
    and a string otherwise. *)
Inductive jsval :=
  | JNull
  | JUndefined
  | JStr (s : string).

(** [ToString] on the values above. *)
Definition ToString (v : jsval) : string :=
  match v with
  | JNull => "null"
  | JUndefined => "undefined"
  | JStr s => s
  end.

(** [ToBoolean]: [null], [undefined] and the empty string are falsy. *)
Definition truthy (v : jsval) : bool :=
  match v with
  | JStr (String _ _) => true
  | _ => false
  end.

(** [a || b]. *)
Definition js_or (a b : jsval) : jsval := if truthy a then a else b.

(** ** String primitives of the runtime *)

Module JsString.

(** WhiteSpace and LineTerminator code units below 256: TAB, LF, VT, FF,
    CR, SPACE and NBSP. *)
Definition is_white_space (c : ascii) : bool :=
  existsb (Ascii.eqb c)
    ["009"; "010"; "011"; "012"; "013"; " "; "160"]%char.

Fixpoint trimStart (s : string) : string :=
  match s with
  | String c s' => if is_white_space c then trimStart s' else s
  | EmptyString => EmptyString
  end.

Fixpoint trimEnd (s : string) : string :=
  match s with
  | String c s' =>
      match trimEnd s' with
      | EmptyString => if is_white_space c then EmptyString else String c EmptyString
      | t => String c t
      end
  | EmptyString => EmptyString
  end.

(** [s.trim()] *)
Definition trim (s : string) : string := trimEnd (trimStart s).

Definition cons_head (c : ascii) (parts : list string) : list string :=
  match parts with
  | h :: t => String c h :: t
  | [] => [String c EmptyString]
  end.

(** [s.split] on a comma *)
Fixpoint split_comma (s : string) : list string :=
  match s with
  | EmptyString => [EmptyString]
  | String c s' =>
      if Ascii.eqb c ","%char then EmptyString :: split_comma s'
      else cons_head c (split_comma s')
  end.

(** [s.split(/\r?\n/)]: a separator is LF, or CR immediately followed by
    LF; a CR on its own stays in the line. *)
Fixpoint split_lines (s : string) : list string :=
  match s with
  | EmptyString => [EmptyString]
  | String c s' =>
      if Ascii.eqb c "010"%char then EmptyString :: split_lines s'
      else
        match s' with
        | String d s'' =>
            if Ascii.eqb c "013"%char && Ascii.eqb d "010"%char
            then EmptyString :: split_lines s''
            else cons_head c (split_lines s')
        | EmptyString => cons_head c (split_lines s')
        end
  end.

Fixpoint drop_last_quote (s : string) : string :=
  match s with
  | EmptyString => EmptyString
  | String c EmptyString =>
      if Ascii.eqb c "034"%char then EmptyString else s
  | String c s' => String c (drop_last_quote s')
  end.

(** [s.replace(re, empty)] for the global pattern that matches a double
    quote at the very start or at the very end: both are removed, and the
    same code unit is never matched twice. *)
Definition strip_quotes (s : string) : string :=
  match s with
  | String c s' =>
      if Ascii.eqb c "034"%char then drop_last_quote s' else drop_last_quote s
  | EmptyString => EmptyString
  end.

(** [arr.indexOf(x)], with [None] for [-1]. *)
Fixpoint indexOf (arr : list string) (x : string) : option nat :=
  match arr with
  | [] => None
  | h :: t => if String.eqb h x then Some 0%nat
              else option_map S (indexOf t x)
  end.

(** [arr.includes(x)] *)
Definition includes (arr : list string) (x : string) : bool :=
  existsb (String.eqb x) arr.

End JsString.

(** ** Numbers: [parseFloat] and [Number.isNaN] *)

Module JsNumber.

(** [Number.isNaN] on a number. *)
Definition isNaN (x : float) : bool := PrimFloat.is_nan x.

(** [Number.isFinite] on a number. *)
Definition isFinite (x : float) : bool := PrimFloat.is_finite x.

(** [x === 0] on numbers (true for both zeros). *)
Definition is_zero (x : float) : bool := PrimFloat.is_zero x.

Definition digit_value (c : ascii) : option Z :=
  let n := Z.of_N (N_of_ascii c) in
  if (48 <=? n) && (n <=? 57) then Some (n - 48) else None.

(** The longest run of decimal digits at the start of [s], and the rest. *)
Fixpoint span_digits (s : string) : list Z * string :=
  match s with
  | String c s' =>
      match digit_value c with
      | Some d => let '(ds, rest) := span_digits s' in (d :: ds, rest)
      | None => ([], s)
      end
  | EmptyString => ([], s)
  end.

Definition digits_value (ds : list Z) : Z :=
  fold_left (fun acc d => 10 * acc + d) ds 0.

(** An optional sign: [true] for a minus. *)
Definition span_sign (s : string) : bool * string :=
  match s with
  | String "-" s' => (true, s')
  | String "+" s' => (false, s')
  | _ => (false, s)
  end.

(** ExponentPart, taken only when complete (indicator, optional sign and
    at least one digit); no exponent counts as 0. *)
Definition span_exponent (s : string) : Z :=
  match s with
  | String c s' =>
      if Ascii.eqb c "e"%char || Ascii.eqb c "E"%char then
        let '(neg, s'') := span_sign s' in
        match span_digits s'' with
        | ([], _) => 0
        | (ds, _) => if neg then - digits_value ds else digits_value ds
        end
      else 0
  | EmptyString => 0
  end.

(** The value of a StrUnsignedDecimalLiteral before rounding:
    [Infinity], or the digits [m] scaled by [10 ^ e]. *)
Inductive unsigned_literal :=
  | LitInfinity
  | LitDecimal (m : Z) (e : Z).

(** The longest prefix of [s] that is a StrUnsignedDecimalLiteral. *)
Definition span_unsigned (s : string) : option unsigned_literal :=
  if String.prefix "Infinity" s then Some LitInfinity
  else
    let '(int_ds, r1) := span_digits s in
    match r1 with
    | String "." r2 =>
        let '(frac_ds, r3) := span_digits r2 in
        match int_ds, frac_ds with
        | [], [] => None
        | _, _ =>
            Some (LitDecimal (digits_value (int_ds ++ frac_ds))
                    (span_exponent r3 - Z.of_nat (List.length frac_ds)))
        end
    | _ =>
        match int_ds with
        | [] => None
        | _ => Some (LitDecimal (digits_value int_ds) (span_exponent r1))
        end
    end.

(** The Number value of [m * 10 ^ e]: round to nearest, ties to even.
    For a negative [e] the quotient is computed with at least 64 bits
    and a sticky bit, so the single rounding of [binary_normalize] is the
    correct one. *)
Definition round_decimal (m e : Z) : float :=
  if m =? 0 then 0%float
  else if 0 <=? e then
    SF2Prim (binary_normalize prec emax (m * 10 ^ e) 0 false)
  else
    let d := 10 ^ (- e) in
    let s := 64 + Z.log2_up d in
    let '(q, r) := Z.div_eucl (m * 2 ^ s) d in
    let sticky := if r =? 0 then 0 else 1 in
    SF2Prim (binary_normalize prec emax (2 * q + sticky) (- s - 1) false).

Definition literal_value (l : unsigned_literal) : float :=
  match l with
  | LitInfinity => infinity
  | LitDecimal m e => round_decimal m e
  end.

(** The longest prefix of [s], after its leading white space, that is a
    StrDecimalLiteral: its sign and its unsigned part. *)
Definition numeric_prefix (s : string) : option (bool * unsigned_literal) :=
  let '(neg, body) := span_sign (JsString.trimStart s) in
  match span_unsigned body with
  | Some l => Some (neg, l)
  | None => None
  end.

(** [parseFloat(string)]: the numeric prefix is converted, anything after
    it is ignored; [NaN] when there is no such prefix. *)
Definition parseFloat_string (s : string) : float :=
  match numeric_prefix s with
  | Some (neg, l) => if neg then (- literal_value l)%float else literal_value l
  | None => nan
  end.

(** [parseFloat(v)] applies [ToString] first. *)
Definition parseFloat (v : jsval) : float := parseFloat_string (ToString v).

End JsNumber.


(** ** Data model *)

(** The [form] state object. *)
Module Form.
Record t := mk {
  uid : string;
  air_temperature_k : float;
  process_temperature_k : float;
  rotational_speed_rpm : float;
  torque_nm : float;
  tool_wear_min : float;
  type : string;
}.
End Form.

(** The body posted to [/predict]. *)
Module Payload.
Record t := mk {
  air_temperature_k : float;
  process_temperature_k : float;
  rotational_speed_rpm : float;
  torque_nm : float;
  tool_wear_min : float;
  power : float;
  power_wear : float;
  temperature_difference : float;
  temperature_power : float;
  type_l : Z;
  type_m : Z;
  type : string;
}.
End Payload.

(** [resp.data] of a fulfilled call. *)
Module Prediction.
Record t := mk {
  failure_probability : float;
  risk_level : string;
}.
End Prediction.

(** An entry of the [assets] state array. *)
Module Asset.
Record t := mk {
  id : string;
  type : string;
  torque_nm : float;
  air_temperature_k : float;
  tool_wear_min : float;
  failure_probability : float;
  risk_level : string;
}.
End Asset.

(** The component state held by the [useState] hooks of [App]. *)
Record AppState := mkApp {
  activePage : string;
  form : Form.t;
  result : option Prediction.t;
  loading : bool;
  error : string;
  csvError : string;
  assets : list Asset.t;
}.

Definition initial_form : Form.t :=
  Form.mk "M14860" 300 310 1500 40 5 "H".

Definition initial_state : AppState :=
  mkApp "single" initial_form None false EmptyString EmptyString [].

Definition setForm (f : Form.t -> Form.t) (st : AppState) : AppState :=
  mkApp (activePage st) (f (form st)) (result st) (loading st) (error st)
        (csvError st) (assets st).

Definition setResult (r : option Prediction.t) (st : AppState) : AppState :=
  mkApp (activePage st) (form st) r (loading st) (error st)
        (csvError st) (assets st).

Definition setLoading (b : bool) (st : AppState) : AppState :=
  mkApp (activePage st) (form st) (result st) b (error st)
        (csvError st) (assets st).

Definition setError (msg : string) (st : AppState) : AppState :=
  mkApp (activePage st) (form st) (result st) (loading st) msg
        (csvError st) (assets st).

Definition setCsvError (msg : string) (st : AppState) : AppState :=
  mkApp (activePage st) (form st) (result st) (loading st) (error st)
        msg (assets st).

Definition setAssets (f : list Asset.t -> list Asset.t) (st : AppState) : AppState :=
  mkApp (activePage st) (form st) (result st) (loading st) (error st)
        (csvError st) (f (assets st)).

Definition setActivePage (p : string) (st : AppState) : AppState :=
  mkApp p (form st) (result st) (loading st) (error st)
        (csvError st) (assets st).

(** A call to the scoring endpoint: [axios.post] on [API_BASE/predict]. *)
Inductive request :=
  | POST_predict (body : Payload.t).

(** How the awaited call ends: fulfilled with [resp.data], or rejected
    (network failure, or a status outside 2xx) with the backend's response
    when there was one. *)
Inductive response :=
  | Fulfilled (data : Prediction.t)
  | Rejected (backend : option string).

(** ** [handleChange] *)

(** [{ ...prev, [name]: v }] for a numeric [v]. The form's inputs carry the
    five names below (besides [uid] and [type]); any other key would add a
    property that no code reads, so the record is left as it is. *)
Definition assign_number (name : string) (v : float) (prev : Form.t) : Form.t :=
  let '(Form.mk u air proc rpm torque wear ty) := prev in
  if String.eqb name "air_temperature_k" then Form.mk u v proc rpm torque wear ty
  else if String.eqb name "process_temperature_k" then Form.mk u air v rpm torque wear ty
  else if String.eqb name "rotational_speed_rpm" then Form.mk u air proc v torque wear ty
  else if String.eqb name "torque_nm" then Form.mk u air proc rpm v wear ty
  else if String.eqb name "tool_wear_min" then Form.mk u air proc rpm torque v ty
  else prev.

(** [{ ...prev, [name]: value }] for [name] one of [uid], [type]. *)
Definition assign_string (name : string) (value : string) (prev : Form.t) : Form.t :=
  let '(Form.mk u air proc rpm torque wear ty) := prev in
  if String.eqb name "uid" then Form.mk value air proc rpm torque wear ty
  else Form.mk u air proc rpm torque wear value.

(** [handleChange]: [name] and [value] are those of [e.target]. *)
Definition handleChange (name value : string) (st : AppState) : AppState :=
  if String.eqb name "uid" || String.eqb name "type" then
    setForm (assign_string name value) st
  else
    setForm (assign_number name (JsNumber.parseFloat (JStr value))) st.



(** ** [handleSubmit] *)

(** The derived features and the payload built from the form. *)
Definition build_payload (f : Form.t) : Payload.t :=
  let power := (Form.rotational_speed_rpm f * Form.torque_nm f)%float in
  let temperature_difference :=
    (Form.process_temperature_k f - Form.air_temperature_k f)%float in
  let power_wear := (power * Form.tool_wear_min f)%float in
  let temperature_power := (temperature_difference / power)%float in
  let type_l := if String.eqb (Form.type f) "L" then 1 else 0 in
  let type_m := if String.eqb (Form.type f) "M" then 1 else 0 in
  {| Payload.air_temperature_k := Form.air_temperature_k f;
     Payload.process_temperature_k := Form.process_temperature_k f;
     Payload.rotational_speed_rpm := Form.rotational_speed_rpm f;
     Payload.torque_nm := Form.torque_nm f;
     Payload.tool_wear_min := Form.tool_wear_min f;
     Payload.power := power;
     Payload.power_wear := power_wear;
     Payload.temperature_difference := temperature_difference;
     Payload.temperature_power := temperature_power;
     Payload.type_l := type_l;
     Payload.type_m := type_m;
     Payload.type := Form.type f |}.

(** [prev.findIndex((a) => a.id === uid)], with [None] for [-1]. *)
Definition findIndex (uid : string) (prev : list Asset.t) : option nat :=
  fst <$> list_find (λ a, Asset.id a = uid) prev.

(** The object [updatedAsset] built by the updater. *)
Definition updatedAsset (f : Form.t) (data : Prediction.t) : Asset.t :=
  {| Asset.id := Form.uid f;
     Asset.type := Form.type f;
     Asset.torque_nm := Form.torque_nm f;
     Asset.air_temperature_k := Form.air_temperature_k f;
     Asset.tool_wear_min := Form.tool_wear_min f;
     Asset.failure_probability := Prediction.failure_probability data;
     Asset.risk_level := Prediction.risk_level data |}.

(** The updater passed to [setAssets] on success: the clone with the
    entry at [existingIndex] overwritten, or the array with the new asset
    at its end. *)
Definition upsert (f : Form.t) (data : Prediction.t) (prev : list Asset.t)
  : list Asset.t :=
  let existingIndex := findIndex (Form.uid f) prev in
  match existingIndex with
  | Some i => <[i := updatedAsset f data]> prev
  | None => prev ++ [updatedAsset f data]
  end.

Definition submit_error_message : string :=
  "Failed to fetch prediction. Check API connection.".

(** [handleSubmit] up to the [await]: the three state resets, and the one
    request. *)
Definition handleSubmit_begin (st : AppState) : AppState * list request :=
  (setResult None (setError EmptyString (setLoading true st)),
   [POST_predict (build_payload (form st))]).

(** [handleSubmit] after the [await]. [f] is the form the handler closed
    over when it was invoked; the state is the one current when the call
    settles. *)
Definition handleSubmit_settle (f : Form.t) (r : response) (st : AppState)
  : AppState :=
  match r with
  | Fulfilled data =>
      setLoading false (setAssets (upsert f data) (setResult (Some data) st))
  | Rejected _ =>
      setLoading false (setError submit_error_message st)
  end.

(** A whole submission with nothing happening in between. *)
Definition handleSubmit (r : response) (st : AppState) : AppState * list request :=
  let '(st1, reqs) := handleSubmit_begin st in
  (handleSubmit_settle (form st) r st1, reqs).

(** ** [handleCsvUpload] *)

(** What the [FileReader] reports: [onload] with its [result] ([None] when
    the result is not a string), or [onerror]. *)
Inductive reader_event :=
  | onload (text : option string)
  | onerror.

Definition csv_columns_message : string :=
  "Could not map CSV columns. Make sure it contains UDI, Air temperature [K], Process temperature [K], Rotational speed [rpm], Torque [Nm], Tool wear [min], Type.".

(** One line of the file as cells: split on commas, each cell trimmed and
    stripped of an outer pair of quotes. *)
Definition csv_cells (line : string) : list string :=
  map (fun h => JsString.strip_quotes (JsString.trim h))
      (JsString.split_comma line).

(** The local function [get] of the [onload] handler. *)
Definition csv_get (header row : list string) (colName : string) : jsval :=
  match JsString.indexOf header colName with
  | None => JNull
  | Some idx =>
      match row !! idx with
      | Some v => JStr v
      | None => JUndefined
      end
  end.

(** The uid read from the row: [get(UDI) || get(uid) || get(UID)]. *)
Definition csv_uid (get : string -> jsval) : jsval :=
  js_or (js_or (get "UDI") (get "uid")) (get "UID").

(** The condition under which [onload] reports that the columns could not
    be mapped. *)
Definition csv_rejects (get : string -> jsval) : bool :=
  negb (truthy (csv_uid get))
  || JsNumber.isNaN (JsNumber.parseFloat (get "Air temperature [K]"))
  || JsNumber.isNaN (JsNumber.parseFloat (get "Process temperature [K]"))
  || JsNumber.isNaN (JsNumber.parseFloat (get "Rotational speed [rpm]"))
  || JsNumber.isNaN (JsNumber.parseFloat (get "Torque [Nm]"))
  || JsNumber.isNaN (JsNumber.parseFloat (get "Tool wear [min]")).

(** The machine type read from the row, normalised to H, L or M. *)
Definition csv_type (get : string -> jsval) : string :=
  let typeRaw := JsString.trim (ToString (js_or (get "Type") (JStr "H"))) in
  if JsString.includes ["L"; "M"; "H"] typeRaw then typeRaw else "H".

(** The form written by [onload]: the spread of the previous form is
    overwritten in all seven fields. *)
Definition csv_form (get : string -> jsval) : Form.t :=
  {| Form.uid := ToString (csv_uid get);
     Form.air_temperature_k := JsNumber.parseFloat (get "Air temperature [K]");
     Form.process_temperature_k := JsNumber.parseFloat (get "Process temperature [K]");
     Form.rotational_speed_rpm := JsNumber.parseFloat (get "Rotational speed [rpm]");
     Form.torque_nm := JsNumber.parseFloat (get "Torque [Nm]");
     Form.tool_wear_min := JsNumber.parseFloat (get "Tool wear [min]");
     Form.type := csv_type get |}.

(** [reader.onload]. Lines after the second one are never read. *)
Definition reader_onload (text : option string) (st : AppState) : AppState :=
  match text with
  | None => setCsvError "Unable to read CSV file." st
  | Some text =>
      match JsString.split_lines (JsString.trim text) with
      | line0 :: line1 :: _ =>
          let get := csv_get (csv_cells line0) (csv_cells line1) in
          if csv_rejects get then setCsvError csv_columns_message st
          else setForm (fun prev => csv_form get) st
      | _ =>
          setCsvError "CSV must contain a header and at least one data row." st
      end
  end.

(** [reader.onerror]. *)
Definition reader_onerror (st : AppState) : AppState :=
  setCsvError "Error reading CSV file." st.

Definition reader_settle (ev : reader_event) (st : AppState) : AppState :=
  match ev with
  | onload text => reader_onload text st
  | onerror => reader_onerror st
  end.

(** [handleCsvUpload] with the reader's event delivered at once. [None] is
    an empty file selection. The handler issues no request. *)
Definition handleCsvUpload (file : option reader_event) (st : AppState)
  : AppState * list request :=
  match file with
  | None => (st, [])
  | Some ev => (reader_settle ev (setCsvError EmptyString st), [])
  end.

(** ** The application as a transition system

    The scoring call and the file read are asynchronous: the handler
    returns at once and its continuation runs later, with other events in
    between. A world pairs the component state with the forms captured by
    the submissions still awaiting their response and the number of file
    reads still pending. *)

Record World := mkWorld {
  app : AppState;
  in_flight : list Form.t;
  reading : nat;
}.

Definition initial_world : World := mkWorld initial_state [] 0.

Inductive event :=
  | Navigate (page : string)
  | Change (name value : string)
  | Submit
  | Settle (i : nat) (r : response)
  | PickFile
  | ReaderDone (ev : reader_event).

(** One event; [None] when the event cannot happen in this world (no such
    pending call, no pending read). *)
Definition step (w : World) (e : event) : option World :=
  match e with
  | Navigate page =>
      Some (mkWorld (setActivePage page (app w)) (in_flight w) (reading w))
  | Change name value =>
      Some (mkWorld (handleChange name value (app w)) (in_flight w) (reading w))
  | Submit =>
      Some (mkWorld (fst (handleSubmit_begin (app w)))
                    (in_flight w ++ [form (app w)]) (reading w))
  | Settle i r =>
      match in_flight w !! i with
      | Some f =>
          Some (mkWorld (handleSubmit_settle f r (app w))
                        (delete i (in_flight w)) (reading w))
      | None => None
      end
  | PickFile =>
      Some (mkWorld (setCsvError EmptyString (app w)) (in_flight w)
                    (S (reading w)))
  | ReaderDone ev =>
      match reading w with
      | S n => Some (mkWorld (reader_settle ev (app w)) (in_flight w) n)
      | O => None
      end
  end.

Fixpoint run (w : World) (es : list event) : option World :=
  match es with
  | [] => Some w
  | e :: es' =>
      match step w e with
      | Some w' => run w' es'
      | None => None
      end
  end.

(** ** Views *)

(** A view renders either its placeholder (the registry is empty) or its
    content. *)
Inductive view (A : Type) :=
  | NoAssets
  | Rendered (content : A).
Arguments NoAssets {A}.
Arguments Rendered {A} content.

(** [Array.prototype.sort(comparefn)]. ECMAScript (since its 2019 edition)
    requires the sort to be stable and leaves the algorithm open; on a
    consistent comparator every conforming algorithm returns the same
    array, computed here by stable insertion. *)
Section ArraySort.
Context {A : Type} (comparefn : A -> A -> option Z).

(** A comparator result that is [NaN] ([None]) counts as [+0]. *)
Definition sort_compare (x y : A) : Z := default 0 (comparefn x y).

Fixpoint sort_insert (x : A) (sorted : list A) : list A :=
  match sorted with
  | [] => [x]
  | y :: rest =>
      if sort_compare x y <=? 0 then x :: y :: rest
      else y :: sort_insert x rest
  end.

Definition Array_sort (l : list A) : list A := foldr sort_insert [] l.
End ArraySort.

Definition RISK_ORDER : gmap string Z :=
  {[ "Red" := 3; "Yellow" := 2; "Green" := 1 ]}.

(** [(a, b) => RISK_ORDER[b.risk_level] - RISK_ORDER[a.risk_level]];
    a missing key gives [undefined], and the difference is then [NaN] (as
    it is for a key the object only inherits, such as [constructor]). *)
Definition compare_risk (a b : Asset.t) : option Z :=
  match RISK_ORDER !! Asset.risk_level b, RISK_ORDER !! Asset.risk_level a with
  | Some rb, Some ra => Some (rb - ra)
  | _, _ => None
  end.

(** [DetailedTableView]: the rows of the table, in display order. *)
Definition DetailedTableView (assets : list Asset.t) : view (list Asset.t) :=
  match assets with
  | [] => NoAssets
  | _ => Rendered (Array_sort compare_risk assets)
  end.

(** An entry of the bar chart's [data]; [count] is [None] when the counter
    object has no such key. *)
Record Bucket := mkBucket {
  name : string;
  risk : string;
  count : option Z;
}.

(** The reducer of [HealthSummaryView]:
    [acc[level] = (acc[level] || 0) + 1]. The levels are taken not to be
    names that every object inherits (such as [constructor]), for which
    [acc[level]] is a function and not a count. *)
Definition count_step (acc : gmap string Z) (asset : Asset.t) : gmap string Z :=
  <[ Asset.risk_level asset := default 0 (acc !! Asset.risk_level asset) + 1 ]> acc.

Definition risk_counts (assets : list Asset.t) : gmap string Z :=
  fold_left count_step assets {[ "Green" := 0; "Yellow" := 0; "Red" := 0 ]}.

(** [HealthSummaryView]: the [data] array given to the bar chart. *)
Definition HealthSummaryView (assets : list Asset.t) : view (list Bucket) :=
  match assets with
  | [] => NoAssets
  | _ =>
      let counts := risk_counts assets in
      Rendered
        [ mkBucket "Healthy" "Green" (counts !! "Green");
          mkBucket "Monitoring Required" "Yellow" (counts !! "Yellow");
          mkBucket "Critical" "Red" (counts !! "Red") ]
  end.

(** ** The other renderings of the registry and of the last result *)

Definition COLORS : gmap string string :=
  {[ "Green" := "#4caf50"; "Yellow" := "#ff9800"; "Red" := "#f44336" ]}.

(** The property names every object literal inherits from
    [Object.prototype]. *)
Definition Object_prototype_keys : list string :=
  [ "constructor"; "__proto__"; "hasOwnProperty"; "isPrototypeOf";
    "propertyIsEnumerable"; "toLocaleString"; "toString"; "valueOf";
    "__defineGetter__"; "__defineSetter__"; "__lookupGetter__";
    "__lookupSetter__" ].

(** [COLORS[level] || fallback]: the three colours are non-empty strings,
    so the fallback is taken exactly when the key is missing. For a level
    among [Object_prototype_keys] the expression is the inherited member
    and no colour; the model covers the other levels. *)
Definition color_or (level fallback : string) : string :=
  default fallback (COLORS !! level).

(** One card of [KpiCardsView]. The numbers are kept as the values handed
    to [toFixed]: [failure_percent] is printed with one digit, and so is
    [torque_nm]; [tool_wear_min] is printed as it is. *)
Module KpiCard.
Record t := mk {
  key : string;
  background : string;
  color : string;
  boxShadow : string;
  machine : string;
  status : string;
  failure_percent : float;
  type : string;
  torque_nm : float;
  tool_wear_min : float;
  light : string;
  advice : string;
}.
End KpiCard.

(** The body of [assets.map((asset) => ...)] in [KpiCardsView]. *)
Definition kpi_card (asset : Asset.t) : KpiCard.t :=
  let level := Asset.risk_level asset in
  let bg := color_or level "#424242" in
  let isDarkText := String.eqb level "Yellow" in
  {| KpiCard.key := Asset.id asset;
     KpiCard.background :=
       if String.eqb level "Green" then "linear-gradient(135deg,#388e3c,#66bb6a)"
       else if String.eqb level "Yellow" then "linear-gradient(135deg,#f9a825,#ffeb3b)"
       else "linear-gradient(135deg,#c62828,#ef5350)";
     KpiCard.color := if isDarkText then "#000" else "#fff";
     KpiCard.boxShadow :=
       if String.eqb level "Red" then "0 0 16px rgba(244,67,54,0.7)"
       else "0 0 10px rgba(0,0,0,0.3)";
     KpiCard.machine := Asset.id asset;
     KpiCard.status :=
       if String.eqb level "Red" then "CRITICAL"
       else if String.eqb level "Yellow" then "Moderate Risk"
       else "Healthy";
     KpiCard.failure_percent := (Asset.failure_probability asset * 100)%float;
     KpiCard.type := Asset.type asset;
     KpiCard.torque_nm := Asset.torque_nm asset;
     KpiCard.tool_wear_min := Asset.tool_wear_min asset;
     KpiCard.light := bg;
     KpiCard.advice :=
       if String.eqb level "Red" then "Immediate action required"
       else if String.eqb level "Yellow" then "Inspection recommended soon"
       else "Running smoothly" |}.

(** [KpiCardsView]: the cards, in display order. *)
Definition KpiCardsView (assets : list Asset.t) : view (list KpiCard.t) :=
  match assets with
  | [] => NoAssets
  | _ => Rendered (map kpi_card assets)
  end.

(** The shapes [riskIcon] draws: a square, a triangle or a circle. *)
Inductive icon_shape :=
  | square
  | triangle
  | circle.

(** [riskIcon(risk)]: the colour and the shape of the icon. *)
Definition riskIcon (risk : string) : string * icon_shape :=
  let color := color_or risk "#9e9e9e" in
  let shape :=
    if String.eqb risk "Red" then square
    else if String.eqb risk "Yellow" then triangle
    else circle in
  (color, shape).

(** One row of the detailed table. The three sensor values are printed
    with one digit and [failure_percent] with two. *)
Module TableRow.
Record t := mk {
  key : string;
  backgroundColor : string;
  id : string;
  type : string;
  air_temperature_k : float;
  torque_nm : float;
  tool_wear_min : float;
  failure_percent : float;
  icon : string * icon_shape;
  risk_level : string;
}.
End TableRow.

(** The body of [sortedAssets.map((asset) => ...)]. *)
Definition table_row (asset : Asset.t) : TableRow.t :=
  let level := Asset.risk_level asset in
  {| TableRow.key := Asset.id asset;
     TableRow.backgroundColor :=
       if String.eqb level "Red" then "rgba(244, 67, 54, 0.1)"
       else if String.eqb level "Yellow" then "rgba(255, 193, 7, 0.1)"
       else "rgba(76, 175, 80, 0.08)";
     TableRow.id := Asset.id asset;
     TableRow.type := Asset.type asset;
     TableRow.air_temperature_k := Asset.air_temperature_k asset;
     TableRow.torque_nm := Asset.torque_nm asset;
     TableRow.tool_wear_min := Asset.tool_wear_min asset;
     TableRow.failure_percent := (Asset.failure_probability asset * 100)%float;
     TableRow.icon := riskIcon level;
     TableRow.risk_level := level |}.

(** The body of the table that [DetailedTableView] renders. *)
Definition DetailedTableBody (assets : list Asset.t) : view (list TableRow.t) :=
  match DetailedTableView assets with
  | NoAssets => NoAssets
  | Rendered sortedAssets => Rendered (map table_row sortedAssets)
  end.

(** [pieData]: the two slices of the pie, or none without a result. *)
Definition pieData (result : option Prediction.t) : list (string * float) :=
  match result with
  | Some r =>
      [ ("Failure probability", Prediction.failure_probability r);
        ("No-failure probability", (1 - Prediction.failure_probability r)%float) ]
  | None => []
  end.

(** [riskColor]: [None] is [undefined] (a result whose level has no
    colour; there is no fallback here). As for [color_or], levels among
    [Object_prototype_keys] are not covered. *)
Definition riskColor (result : option Prediction.t) : option string :=
  match result with
  | Some r => COLORS !! Prediction.risk_level r
  | None => Some "#9e9e9e"
  end.

(** The prediction panel of the page [single]: a note while there is no
    result; with a result, the risk dot with [riskColor] as its background,
    the risk level and the pie over [pieData]. The dot is part of the
    second case only, so the value of [riskColor] for no result is never
    rendered. The percentage printed next to the dot is not modelled. *)
Inductive prediction_panel : Type :=
| NoPredictionYet
| PredictionShown (dot : option string) (risk_level : string)
                  (pie : list (string * float)).

Definition PredictionPanel (result : option Prediction.t) : prediction_panel :=
  match result with
  | None => NoPredictionYet
  | Some r => PredictionShown (riskColor result) (Prediction.risk_level r)
                              (pieData result)
  end.

(** The background of the rendered risk dot: [None] when no dot is
    rendered, [Some None] for a dot whose colour is [undefined]. *)
Definition risk_dot (result : option Prediction.t) : option (option string) :=
  match PredictionPanel result with
  | NoPredictionYet => None
  | PredictionShown dot _ _ => Some dot
  end.

(** ** What the rendered page lets the operator do

    The tabs set [activePage] to one of four ids. The form, with its
    inputs, its file input and its submit button, is rendered only on the
    page [single], and the submit button is disabled while [loading] is
    set. Responses and file reads arrive whatever is rendered. *)

Definition tab_ids : list string := [ "single"; "kpi"; "summary"; "table" ].

Definition ui_enabled (w : World) (e : event) : bool :=
  match e with
  | Navigate page => JsString.includes tab_ids page
  | Change _ _ | PickFile => String.eqb (activePage (app w)) "single"
  | Submit => String.eqb (activePage (app w)) "single" && negb (loading (app w))
  | Settle _ _ | ReaderDone _ => true
  end.

Definition ui_step (w : World) (e : event) : option World :=
  if ui_enabled w e then step w e else None.

Fixpoint ui_run (w : World) (es : list event) : option World :=
  match es with
  | [] => Some w
  | e :: es' =>
      match ui_step w e with
      | Some w' => ui_run w' es'
      | None => None
      end
  end.

(** * Vocabulary of the properties *)

(** The ids in the registry, in order. *)
Definition ids (prev : list Asset.t) : list string := Asset.id <$> prev.

(** The three risk levels the scoring service assigns. *)
Definition known_level (level : string) : Prop :=
  level = "Green" \/ level = "Yellow" \/ level = "Red".

Definition known_levels (assets : list Asset.t) : Prop :=
  Forall (fun a => known_level (Asset.risk_level a)) assets.

(** The rank [RISK_ORDER] gives to an asset's level (0 when it has none). *)
Definition severity (a : Asset.t) : Z :=
  default 0 (RISK_ORDER !! Asset.risk_level a).

(** The assets of one level, in the order of the list. *)
Definition with_level (level : string) (assets : list Asset.t) : list Asset.t :=
  filter (fun a => Asset.risk_level a = level) assets.

(** The rows a table view shows; the placeholder shows none. *)
Definition table_rows (v : view (list Asset.t)) : list Asset.t :=
  match v with
  | NoAssets => []
  | Rendered rows => rows
  end.

(** Descending in a key. *)
Definition descending {A : Type} (key : A -> Z) (x y : A) : Prop :=
  key y <= key x.

(** How many assets have the level. *)
Definition level_count (level : string) (assets : list Asset.t) : Z :=
  Z.of_nat (List.length (with_level level assets)).

(** The chart shows the three buckets, each with its head count, and the
    counts add up to the size of the registry. *)
Definition shows_three_buckets (assets : list Asset.t) : Prop :=
  HealthSummaryView assets =
    Rendered
      [ mkBucket "Healthy" "Green" (Some (level_count "Green" assets));
        mkBucket "Monitoring Required" "Yellow" (Some (level_count "Yellow" assets));
        mkBucket "Critical" "Red" (Some (level_count "Red" assets)) ]
  /\ level_count "Green" assets + level_count "Yellow" assets
       + level_count "Red" assets = Z.of_nat (List.length assets).

(** The header labels the numeric fields are read from, and the labels
    the machine id may come under. *)
Definition numeric_columns : list string :=
  [ "Air temperature [K]"; "Process temperature [K]";
    "Rotational speed [rpm]"; "Torque [Nm]"; "Tool wear [min]" ].

Definition uid_columns : list string := [ "UDI"; "uid"; "UID" ].

(** The file has no usable id or lacks a usable number: every id column is
    absent or has an empty cell, or some numeric column is absent or has a
    cell that [parseFloat] turns into [NaN]. *)
Definition csv_unusable (header : list string) (get : string -> jsval) : Prop :=
  (forall c, c ∈ uid_columns -> c ∉ header \/ truthy (get c) = false)
  \/ (exists c, c ∈ numeric_columns
                /\ (c ∉ header
                    \/ JsNumber.isNaN (JsNumber.parseFloat (get c)) = true)).

(** C8 as the specification words it: [Type] is one of the required
    header labels, and a file that lacks a required label is answered by
    the validation message, the form staying as it was. *)
Definition required_columns : list string := numeric_columns ++ [ "Type" ].

Definition rejected_unchanged (text : string) (st : AppState) : Prop :=
  let st' := fst (handleCsvUpload (Some (onload (Some text))) st) in
  csvError st' = csv_columns_message /\ form st' = form st.



(** The events that are neither a submission nor a response: navigation,
    typing, and the two halves of a file upload. *)
Definition is_edit (e : event) : bool :=
  match e with
  | Submit | Settle _ _ => false
  | _ => true
  end.

(** The position at which [upsert] writes: that of the first asset with
    the id, or the end of the registry. *)
Definition upsert_position (uid : string) (prev : list Asset.t) : nat :=
  default (List.length prev) (findIndex uid prev).

(** What every state of a session satisfies when the operator can only
    do what the rendered page allows: nothing is pending and the page is
    idle, showing at most one of a result and an error; or exactly one
    call is pending, the page is loading and shows neither. *)
Definition ui_consistent (w : World) : Prop :=
  (in_flight w = [] /\ loading (app w) = false
   /\ (result (app w) = None \/ error (app w) = EmptyString))
  \/ (exists f, in_flight w = [f] /\ loading (app w) = true
                /\ result (app w) = None /\ error (app w) = EmptyString).

(** The keys React is given for the cards and for the table rows. *)
Definition card_keys (v : view (list KpiCard.t)) : list string :=
  match v with
  | NoAssets => []
  | Rendered cards => KpiCard.key <$> cards
  end.

Definition row_keys (v : view (list TableRow.t)) : list string :=
  match v with
  | NoAssets => []
  | Rendered rows => TableRow.key <$> rows
  end.

(** The assets whose level is none of Green, Yellow, Red. *)
Definition unrecognised (assets : list Asset.t) : list Asset.t :=
  filter (fun a => ~ known_level (Asset.risk_level a)) assets.

(** Whether a character occurs in a string. *)
Fixpoint contains_char (ch : ascii) (s : string) : bool :=
  match s with
  | EmptyString => false
  | String c s' => Ascii.eqb c ch || contains_char ch s'
  end.

(** The message of [onload] for a file of fewer than two lines. *)
Definition csv_lines_message : string :=
  "CSV must contain a header and at least one data row.".

(** How a file is written: a cell in double quotes, the cells of a line
    joined by commas, a header line and a data line joined by a line
    feed. *)
Definition quote_cell (c : string) : string :=
  String "034" (c +:+ String "034" EmptyString).

Fixpoint join_comma (cells : list string) : string :=
  match cells with
  | [] => EmptyString
  | [c] => c
  | c :: rest => c +:+ String "," (join_comma rest)
  end.

Definition quoted_line (cells : list string) : string :=
  join_comma (quote_cell <$> cells).

Definition quoted_file (columns : list (string * string)) : string :=
  quoted_line (fst <$> columns) +:+ String "010" (quoted_line (snd <$> columns)).

(** A cell that can be written between quotes: it holds neither a comma
    nor a line feed. *)
Definition writable_cell (c : string) : Prop :=
  contains_char "," c = false /\ contains_char "010" c = false.

(** The header labels [onload] looks up. *)
Definition read_columns : list string :=
  uid_columns ++ numeric_columns ++ [ "Type" ].

(** * Sample data *)

(** Three assets and a re-submission of the second one. *)
Definition asset_A : Asset.t := Asset.mk "A" "H" 40 300 5 0.25 "Yellow".
Definition asset_B : Asset.t := Asset.mk "B" "L" 35 298 12 0.0625 "Green".
Definition asset_C : Asset.t := Asset.mk "C" "M" 60 305 200 0.75 "Red".
Definition asset_B' : Asset.t := Asset.mk "B" "M" 55 301 90 0.5 "Red".

(** Risk levels Green, Red, Yellow, Red, in this order. *)
Definition asset_G : Asset.t := Asset.mk "M1" "H" 40 300 5 0.0625 "Green".
Definition asset_R1 : Asset.t := Asset.mk "M2" "L" 70 302 210 0.75 "Red".
Definition asset_Y : Asset.t := Asset.mk "M3" "M" 50 299 120 0.25 "Yellow".
Definition asset_R2 : Asset.t := Asset.mk "M4" "H" 10 304 10 0.5 "Red".

Definition state_ABC_resubmit_B : AppState :=
  mkApp "single" (Form.mk "B" 301 311 1400 55 90 "M") None false
        EmptyString EmptyString [asset_A; asset_B; asset_C].

Definition state_AB_submit_C : AppState :=
  mkApp "single" (Form.mk "C" 305 315 1300 60 200 "M") None false
        EmptyString EmptyString [asset_A; asset_B].

(** Two machines are scored, then the first one again while the operator
    keeps typing. *)
Definition session_events : list event :=
  [ Change "uid" "M1"; Submit; Settle 0 (Fulfilled (Prediction.mk 0.25 "Yellow"));
    Change "uid" "M2"; Change "torque_nm" "12.5"; Submit;
    Change "uid" "M1"; Submit;
    Settle 1 (Fulfilled (Prediction.mk 0.75 "Red"));
    Settle 0 (Fulfilled (Prediction.mk 0.0625 "Green")) ].


(** A stopped machine (speed 0), and the initial form. *)
Definition state_zero_speed : AppState :=
  handleChange "rotational_speed_rpm" "0" initial_state.

Definition LF : string := String "010" EmptyString.

(** A file without the torque column, and a complete one whose type is
    not a machine type. *)
Definition csv_without_torque : string :=
  String.append
    "UDI,Product ID,Type,Air temperature [K],Process temperature [K],Rotational speed [rpm],Tool wear [min]"
    (String.append LF "1,M14860,M,298.5,308.25,1551,0").

Definition csv_with_unknown_type : string :=
  String.append
    "UDI,Product ID,Type,Air temperature [K],Process temperature [K],Rotational speed [rpm],Torque [Nm],Tool wear [min]"
    (String.append LF "1,M14860,X,298.5,308.25,1551,42.75,0").

Definition csv_without_type : string :=
  String.append
    "UDI,Air temperature [K],Process temperature [K],Rotational speed [rpm],Torque [Nm],Tool wear [min]"
    (String.append LF "7,298.5,308.25,1551,42.75,0").

(** A complete file, loaded while the registry holds three assets. *)
Definition csv_header_line : string :=
  "UDI,Product ID,Type,Air temperature [K],Process temperature [K],Rotational speed [rpm],Torque [Nm],Tool wear [min]".

Definition csv_data_line : string := "1,M14860,M,298.5,308.25,1551,42.75,0".

Definition csv_complete : string :=
  String.append csv_header_line (String.append LF csv_data_line).

(** A session on the rendered page: a prediction for M1, a look at the
    table, then a failed prediction for M2. *)
Definition ui_session_events : list event :=
  [ Change "uid" "M1"; Submit; Change "uid" "M2";
    Settle 0 (Fulfilled (Prediction.mk 0.25 "Yellow"));
    Navigate "table"; Navigate "single";
    Submit; Settle 0 (Rejected None) ].

(** * Properties *)

(** ** The registry *)

Section Registry.
Implicit Types (prev before rest : list Asset.t) (uid : string).

Lemma findIndex_None uid prev :
  findIndex uid prev = None <-> (forall a, a ∈ prev -> Asset.id a <> uid).
Proof.
  unfold findIndex. rewrite fmap_None, list_find_None, Forall_forall.
  reflexivity.
Qed.

Lemma findIndex_Some uid prev i :
  findIndex uid prev = Some i ->
  exists old, prev !! i = Some old /\ Asset.id old = uid.
Proof.
  unfold findIndex. intros [[j old] [Hfind Hi]]%fmap_Some.
  simpl in Hi. subst j. apply list_find_Some in Hfind as (Hl & Hid & _).
  eauto.
Qed.

(** The first asset with the id is the one [findIndex] reports. *)
Lemma findIndex_middle uid before old rest :
  Asset.id old = uid ->
  (forall a, a ∈ before -> Asset.id a <> uid) ->
  findIndex uid (before ++ old :: rest) = Some (List.length before).
Proof.
  intros Hold Hbefore. unfold findIndex.
  rewrite list_find_app_r by (apply list_find_None, Forall_forall; exact Hbefore).
  simpl. rewrite decide_True by exact Hold. reflexivity.
Qed.

Lemma insert_middle before rest (old new : Asset.t) :
  <[List.length before := new]> (before ++ old :: rest) = before ++ new :: rest.
Proof.
  replace (List.length before) with (List.length before + 0)%nat by lia.
  rewrite insert_app_r. reflexivity.
Qed.

Lemma upsert_fresh f data prev :
  (forall a, a ∈ prev -> Asset.id a <> Form.uid f) ->
  upsert f data prev = prev ++ [updatedAsset f data].
Proof.
  intros Hfresh. unfold upsert.
  rewrite (proj2 (findIndex_None _ _) Hfresh). reflexivity.
Qed.

Lemma upsert_existing f data before old rest :
  Asset.id old = Form.uid f ->
  (forall a, a ∈ before -> Asset.id a <> Form.uid f) ->
  upsert f data (before ++ old :: rest) = before ++ updatedAsset f data :: rest.
Proof.
  intros Hold Hbefore. unfold upsert.
  rewrite (findIndex_middle _ _ _ _ Hold Hbefore). apply insert_middle.
Qed.

Lemma upsert_ids f data prev :
  ids (upsert f data prev) =
    if bool_decide (Form.uid f ∈ ids prev) then ids prev
    else ids prev ++ [Form.uid f].
Proof.
  unfold upsert, ids.
  destruct (findIndex (Form.uid f) prev) as [i|] eqn:Hfind.
  - destruct (findIndex_Some _ _ _ Hfind) as (old & Hl & Hid).
    rewrite bool_decide_eq_true_2.
    + rewrite list_fmap_insert. apply list_insert_id.
      rewrite list_lookup_fmap, Hl. simpl. f_equal. exact Hid.
    + apply list_elem_of_fmap. exists old. split; [congruence|].
      eapply list_elem_of_lookup_2; eauto.
  - rewrite bool_decide_eq_false_2.
    + rewrite fmap_app. reflexivity.
    + intros (a & Ha & Hin)%list_elem_of_fmap.
      apply (proj1 (findIndex_None _ _) Hfind a Hin). congruence.
Qed.

Lemma upsert_NoDup f data prev :
  NoDup (ids prev) -> NoDup (ids (upsert f data prev)).
Proof.
  intros Hnd. rewrite upsert_ids. case_bool_decide as Hin; [exact Hnd|].
  apply NoDup_app. split_and!; [exact Hnd| |apply NoDup_singleton].
  intros x Hx ->%list_elem_of_singleton. exact (Hin Hx).
Qed.
End Registry.

(** ** What each handler leaves alone *)

Section Frames.
Implicit Types (st : AppState).

Lemma handleChange_frame name value st :
  let st' := handleChange name value st in
  assets st' = assets st /\ result st' = result st /\
  loading st' = loading st /\ error st' = error st /\
  csvError st' = csvError st /\ activePage st' = activePage st.
Proof. unfold handleChange. destruct (_ || _); repeat split. Qed.

Lemma reader_onload_cases text st :
  (exists msg, reader_onload text st = setCsvError msg st) \/
  (exists f, reader_onload text st = setForm (fun _ => f) st).
Proof.
  unfold reader_onload. destruct text as [text|]; [|left; eauto].
  destruct (JsString.split_lines _) as [|line0 [|line1 ?]]; [left; eauto..|].
  match goal with |- context [if ?c then _ else _] => destruct c end;
    [left|right]; eauto.
Qed.

Lemma reader_settle_frame ev st :
  let st' := reader_settle ev st in
  assets st' = assets st /\ result st' = result st /\
  loading st' = loading st /\ error st' = error st /\
  activePage st' = activePage st.
Proof.
  destruct ev as [text|]; simpl; [|repeat split].
  destruct (reader_onload_cases text st) as [[msg ->]|[f ->]]; repeat split.
Qed.

Lemma handleSubmit_begin_frame st :
  assets (fst (handleSubmit_begin st)) = assets st /\
  form (fst (handleSubmit_begin st)) = form st /\
  csvError (fst (handleSubmit_begin st)) = csvError st.
Proof. repeat split. Qed.

Lemma handleSubmit_settle_assets f r st :
  assets (handleSubmit_settle f r st) =
    match r with
    | Fulfilled data => upsert f data (assets st)
    | Rejected _ => assets st
    end.
Proof. destruct r; reflexivity. Qed.
End Frames.

(** ** C1 and C2: upsert keeps positions and ids unique *)

(** C1: on a successful prediction the registry is upserted in place. When
    no asset carries the submitted id, the new asset is appended after all
    existing ones; when one does, the first such asset is overwritten by the
    new asset, built from the form and the prediction alone, and every other
    position is left as it was. *)
Theorem registry_upsert_preserves_order (st : AppState) (data : Prediction.t) :
  let uid := Form.uid (form st) in
  let new := updatedAsset (form st) data in
  let after := assets (fst (handleSubmit (Fulfilled data) st)) in
  new = Asset.mk uid (Form.type (form st)) (Form.torque_nm (form st))
          (Form.air_temperature_k (form st)) (Form.tool_wear_min (form st))
          (Prediction.failure_probability data) (Prediction.risk_level data)
  /\ ((forall a, a ∈ assets st -> Asset.id a <> uid) ->
      after = assets st ++ [new])
  /\ (forall before old rest,
        assets st = before ++ old :: rest ->
        Asset.id old = uid ->
        (forall a, a ∈ before -> Asset.id a <> uid) ->
        after = before ++ new :: rest).
Proof.
  cbv zeta. split; [reflexivity|]. split.
  - intros Hfresh. simpl. apply upsert_fresh, Hfresh.
  - intros before old rest Hsplit Hold Hbefore. simpl.
    rewrite Hsplit. apply upsert_existing; assumption.
Qed.

(** C2: the registry never holds two assets with the same id: neither
    after any sequence of upserts starting from the empty registry, nor in
    any world reachable from the initial one by any sequence of events. *)
Theorem registry_ids_unique :
  (forall subs : list (Form.t * Prediction.t),
      NoDup (ids (fold_left (fun reg s => upsert (fst s) (snd s) reg) subs [])))
  /\ (forall (es : list event) (w : World),
        run initial_world es = Some w -> NoDup (ids (assets (app w)))).
Proof.
  split.
  - intros subs.
    assert (Hgen : forall reg, NoDup (ids reg) ->
              NoDup (ids (fold_left (fun reg s => upsert (fst s) (snd s) reg) subs reg))).
    { induction subs as [|s subs IH]; intros reg Hreg; simpl; [exact Hreg|].
      apply IH, upsert_NoDup, Hreg. }
    apply Hgen. constructor.
  - intros es.
    assert (Hgen : forall w0 w, NoDup (ids (assets (app w0))) ->
              run w0 es = Some w -> NoDup (ids (assets (app w)))).
    { induction es as [|e es IH]; intros w0 w Hinv Hrun; simpl in Hrun.
      - injection Hrun as <-. exact Hinv.
      - destruct (step w0 e) as [w1|] eqn:Hstep; [|discriminate].
        apply (IH w1 w); [|exact Hrun].
        destruct e as [page|name value| |i r| |ev]; simpl in Hstep.
        + injection Hstep as <-. exact Hinv.
        + injection Hstep as <-. simpl.
          rewrite (proj1 (handleChange_frame name value (app w0))). exact Hinv.
        + injection Hstep as <-. exact Hinv.
        + destruct (in_flight w0 !! i) as [f|]; [|discriminate].
          injection Hstep as <-. simpl. rewrite handleSubmit_settle_assets.
          destruct r; [apply upsert_NoDup|]; exact Hinv.
        + injection Hstep as <-. exact Hinv.
        + destruct (reading w0) as [|n]; [discriminate|].
          injection Hstep as <-. simpl.
          rewrite (proj1 (reader_settle_frame ev (app w0))). exact Hinv. }
    intros w. apply Hgen. constructor.
Qed.

Lemma registry_upsert_preserves_order_witness :
  assets (fst (handleSubmit (Fulfilled (Prediction.mk 0.5 "Red"))
                 state_ABC_resubmit_B))
    = [asset_A; asset_B'; asset_C]
  /\ assets (fst (handleSubmit (Fulfilled (Prediction.mk 0.75 "Red"))
                    state_AB_submit_C))
    = [asset_A; asset_B; asset_C].
Proof.
  split.
  - apply (proj2 (proj2 (registry_upsert_preserves_order
                           state_ABC_resubmit_B (Prediction.mk 0.5 "Red")))
             [asset_A] asset_B [asset_C]).
    + reflexivity.
    + reflexivity.
    + intros a Ha. apply list_elem_of_singleton in Ha. subst a. discriminate.
  - apply (proj1 (proj2 (registry_upsert_preserves_order
                           state_AB_submit_C (Prediction.mk 0.75 "Red")))).
    intros a Ha. simpl in Ha.
    apply elem_of_cons in Ha as [->|Ha]; [discriminate|].
    apply list_elem_of_singleton in Ha. subst a. discriminate.
Defined.

Lemma registry_ids_unique_witness :
  exists w, run initial_world session_events = Some w
            /\ ids (assets (app w)) = ["M1"; "M2"]
            /\ NoDup (ids (assets (app w))).
Proof.
  eexists. split; [vm_compute; reflexivity|]. split; [reflexivity|].
  apply (proj2 registry_ids_unique session_events). vm_compute. reflexivity.
Defined.

(** ** The sort behind the detailed table *)

Section ArraySortFacts.
Context {A : Type} (comparefn : A -> A -> option Z).
Implicit Types (x y : A) (l : list A).

Lemma sort_insert_perm x l : sort_insert comparefn x l ≡ₚ x :: l.
Proof.
  induction l as [|y l IH]; simpl; [reflexivity|].
  destruct (_ <=? 0); [reflexivity|].
  rewrite IH. apply perm_swap.
Qed.

Lemma Array_sort_perm l : Array_sort comparefn l ≡ₚ l.
Proof.
  induction l as [|x l IH]; simpl; [reflexivity|].
  rewrite sort_insert_perm, IH. reflexivity.
Qed.

Lemma sort_insert_Forall (Q : A -> Prop) x l :
  Q x -> Forall Q l -> Forall Q (sort_insert comparefn x l).
Proof.
  intros Hx Hl. rewrite sort_insert_perm. constructor; assumption.
Qed.

(** Stability, class by class: when the members of a class compare as
    equal, the class keeps its input order. *)
Section Stable.
Context (Q : A -> Prop) `{!forall x, Decision (Q x)}.
Hypothesis Q_ties : forall x y, Q x -> Q y -> sort_compare comparefn x y <= 0.

Lemma sort_insert_filter x l :
  filter Q (sort_insert comparefn x l) = filter Q (x :: l).
Proof.
  induction l as [|y l IH]; simpl; [reflexivity|].
  destruct (sort_compare comparefn x y <=? 0) eqn:Hle; [reflexivity|].
  rewrite filter_cons, IH, !filter_cons.
  destruct (decide (Q x)) as [Hx|Hx], (decide (Q y)) as [Hy|Hy];
    try reflexivity.
  apply Z.leb_gt in Hle. pose proof (Q_ties x y Hx Hy). lia.
Qed.

Lemma Array_sort_filter l : filter Q (Array_sort comparefn l) = filter Q l.
Proof.
  induction l as [|x l IH]; simpl; [reflexivity|].
  rewrite sort_insert_filter, !filter_cons, IH. reflexivity.
Qed.
End Stable.

(** Order: when the comparator is the difference of a key, on the
    elements that have one, the result is descending in the key. *)
Section Keyed.
Context (key : A -> Z) (P : A -> Prop).
Hypothesis comparefn_key :
  forall x y, P x -> P y -> sort_compare comparefn x y = key y - key x.

Lemma sort_insert_sorted x l :
  P x -> Forall P l -> StronglySorted (descending key) l ->
  StronglySorted (descending key) (sort_insert comparefn x l).
Proof.
  intros Hx. induction l as [|y l IH]; intros Hl Hs; simpl.
  - constructor; constructor.
  - apply Forall_cons in Hl as [Hy Hl].
    apply StronglySorted_inv in Hs as [Hs Hyl].
    rewrite comparefn_key by assumption.
    destruct (key y - key x <=? 0) eqn:Hle.
    + apply Z.leb_le in Hle. constructor.
      * constructor; assumption.
      * constructor; [unfold descending; lia|].
        eapply Forall_impl; [exact Hyl|].
        unfold descending. intros z Hz. lia.
    + apply Z.leb_gt in Hle. constructor.
      * apply IH; assumption.
      * apply sort_insert_Forall; [unfold descending; lia|exact Hyl].
Qed.

Lemma Array_sort_sorted l :
  Forall P l -> StronglySorted (descending key) (Array_sort comparefn l).
Proof.
  induction l as [|x l IH]; intros Hl; simpl; [constructor|].
  apply Forall_cons in Hl as [Hx Hl].
  apply sort_insert_sorted; [exact Hx| |apply IH, Hl].
  rewrite Array_sort_perm. exact Hl.
Qed.
End Keyed.
End ArraySortFacts.

(** ** C3: the detailed table *)

Section DetailedTable.
Implicit Types (a b : Asset.t) (assets : list Asset.t).

Lemma RISK_ORDER_ranks :
  RISK_ORDER !! "Red" = Some 3 /\ RISK_ORDER !! "Yellow" = Some 2 /\
  RISK_ORDER !! "Green" = Some 1.
Proof. repeat split. Qed.

Lemma compare_risk_key a b :
  known_level (Asset.risk_level a) -> known_level (Asset.risk_level b) ->
  sort_compare compare_risk a b = severity b - severity a.
Proof.
  unfold sort_compare, compare_risk, severity.
  intros [Ha|[Ha|Ha]] [Hb|[Hb|Hb]]; rewrite Ha, Hb; reflexivity.
Qed.

Lemma compare_risk_ties level a b :
  Asset.risk_level a = level -> Asset.risk_level b = level ->
  sort_compare compare_risk a b <= 0.
Proof.
  unfold sort_compare, compare_risk. intros Ha Hb. rewrite Ha, Hb.
  destruct (RISK_ORDER !! level) as [r|]; simpl; lia.
Qed.

Lemma with_level_none level assets :
  Forall (fun a => Asset.risk_level a <> level) assets ->
  with_level level assets = [].
Proof.
  unfold with_level. induction 1 as [|a l Ha _ IH]; [reflexivity|].
  rewrite filter_cons_False by exact Ha. exact IH.
Qed.

(** A list that is descending in severity is its Red part, then its
    Yellow part, then its Green part. *)
Lemma descending_by_level assets :
  known_levels assets ->
  StronglySorted (descending severity) assets ->
  assets = with_level "Red" assets ++ with_level "Yellow" assets
             ++ with_level "Green" assets.
Proof.
  intros Hk Hs. induction Hs as [|a l Hs IH Hal]; [reflexivity|].
  apply Forall_cons in Hk as [Ha Hk]. specialize (IH Hk).
  assert (Hbelow : forall level r,
             RISK_ORDER !! level = Some r -> severity a < r ->
             with_level level l = []).
  { intros level r Hr Hlt. apply with_level_none.
    eapply Forall_impl; [exact Hal|]. intros b Hb Hlevel.
    unfold descending in Hb.
    assert (severity b = r) as Hsb by (unfold severity; rewrite Hlevel, Hr; reflexivity).
    lia. }
  unfold with_level in *.
  destruct Ha as [Ha|[Ha|Ha]].
  - assert (Hr : filter (fun b => Asset.risk_level b = "Red") l = []).
    { apply (Hbelow "Red" 3); [reflexivity|]. unfold severity. rewrite Ha. reflexivity. }
    assert (Hy : filter (fun b => Asset.risk_level b = "Yellow") l = []).
    { apply (Hbelow "Yellow" 2); [reflexivity|]. unfold severity. rewrite Ha. reflexivity. }
    rewrite Hr, Hy in IH.
    rewrite (filter_cons_False _ a l) by (rewrite Ha; discriminate).
    rewrite (filter_cons_False _ a l) by (rewrite Ha; discriminate).
    rewrite (filter_cons_True _ a l) by exact Ha.
    rewrite Hr, Hy. simpl. f_equal. exact IH.
  - assert (Hr : filter (fun b => Asset.risk_level b = "Red") l = []).
    { apply (Hbelow "Red" 3); [reflexivity|]. unfold severity. rewrite Ha. reflexivity. }
    rewrite Hr in IH.
    rewrite (filter_cons_False _ a l) by (rewrite Ha; discriminate).
    rewrite (filter_cons_True _ a l) by exact Ha.
    rewrite (filter_cons_False _ a l) by (rewrite Ha; discriminate).
    rewrite Hr. simpl. f_equal. exact IH.
  - rewrite (filter_cons_True _ a l) by exact Ha.
    rewrite (filter_cons_False _ a l) by (rewrite Ha; discriminate).
    rewrite (filter_cons_False _ a l) by (rewrite Ha; discriminate).
    simpl. f_equal. exact IH.
Qed.

Lemma DetailedTableView_rows assets :
  table_rows (DetailedTableView assets) = Array_sort compare_risk assets.
Proof. destruct assets; reflexivity. Qed.

Lemma Array_sort_descending assets :
  known_levels assets ->
  StronglySorted (descending severity) (Array_sort compare_risk assets).
Proof.
  intros Hk.
  apply (Array_sort_sorted compare_risk severity
           (fun a => known_level (Asset.risk_level a))); [|exact Hk].
  intros a b. apply compare_risk_key.
Qed.

Lemma Array_sort_with_level level assets :
  with_level level (Array_sort compare_risk assets) = with_level level assets.
Proof.
  unfold with_level. apply Array_sort_filter.
  intros a b. apply compare_risk_ties.
Qed.

Lemma Array_sort_by_level assets :
  known_levels assets ->
  Array_sort compare_risk assets =
    with_level "Red" assets ++ with_level "Yellow" assets
      ++ with_level "Green" assets.
Proof.
  intros Hk. rewrite <- !(Array_sort_with_level _ assets).
  apply descending_by_level; [|apply Array_sort_descending, Hk].
  unfold known_levels. rewrite Array_sort_perm. exact Hk.
Qed.

(** The model of the sort is not a choice that matters: any arrangement
    of the same assets that is descending in severity and keeps each
    level in registry order is the one the table shows. *)
Lemma detailed_table_determined assets (rows : list Asset.t) :
  known_levels assets ->
  rows ≡ₚ assets ->
  StronglySorted (descending severity) rows ->
  (forall level, with_level level rows = with_level level assets) ->
  rows = table_rows (DetailedTableView assets).
Proof.
  intros Hk Hperm Hsorted Hstable.
  rewrite DetailedTableView_rows, Array_sort_by_level by exact Hk.
  rewrite <- !Hstable. apply descending_by_level; [|exact Hsorted].
  unfold known_levels. rewrite Hperm. exact Hk.
Qed.
End DetailedTable.

(** C3: when every asset has one of the three risk levels, the rows of the
    detailed table are all the assets of the registry, in descending order
    of severity rank (Red 3, Yellow 2, Green 1), and within each level in
    the order they have in the registry; no other field takes part. The
    rows are therefore the Red assets, then the Yellow ones, then the Green
    ones, each group in registry order. An empty registry shows the
    placeholder, which has no rows. *)
Theorem detailed_table_sorted_stable (assets : list Asset.t) :
  known_levels assets ->
  let rows := table_rows (DetailedTableView assets) in
  (assets <> [] -> DetailedTableView assets = Rendered rows)
  /\ rows ≡ₚ assets
  /\ (RISK_ORDER !! "Red" = Some 3 /\ RISK_ORDER !! "Yellow" = Some 2
      /\ RISK_ORDER !! "Green" = Some 1)
  /\ StronglySorted (fun a b => severity b <= severity a) rows
  /\ (forall level, with_level level rows = with_level level assets)
  /\ rows = with_level "Red" assets ++ with_level "Yellow" assets
              ++ with_level "Green" assets.
Proof.
  intros Hk rows.
  assert (Hrows : rows = Array_sort compare_risk assets)
    by apply DetailedTableView_rows.
  split_and!.
  - intros Hne. subst rows. destruct assets; [congruence|reflexivity].
  - rewrite Hrows. apply Array_sort_perm.
  - reflexivity.
  - reflexivity.
  - reflexivity.
  - rewrite Hrows. apply Array_sort_descending, Hk.
  - intros level. rewrite Hrows. apply Array_sort_with_level.
  - rewrite Hrows. apply Array_sort_by_level, Hk.
Qed.

Lemma detailed_table_sorted_stable_witness :
  DetailedTableView [asset_G; asset_R1; asset_Y; asset_R2]
    = Rendered [asset_R1; asset_R2; asset_Y; asset_G].
Proof.
  assert (Hk : known_levels [asset_G; asset_R1; asset_Y; asset_R2]).
  { unfold known_levels, known_level.
    repeat (apply Forall_cons; split; [simpl; auto|]). constructor. }
  destruct (detailed_table_sorted_stable _ Hk) as (Hview & _ & _ & _ & _ & Hrows).
  rewrite Hview by discriminate. rewrite Hrows. reflexivity.
Defined.

(** ** C4: the health summary *)

Section HealthSummary.
Implicit Types (a : Asset.t) (assets : list Asset.t) (acc : gmap string Z).

Lemma count_step_lookup acc a level :
  count_step acc a !! level =
    if decide (Asset.risk_level a = level)
    then Some (default 0 (acc !! level) + 1)
    else acc !! level.
Proof.
  unfold count_step. rewrite lookup_insert.
  destruct (decide (Asset.risk_level a = level)) as [->|]; reflexivity.
Qed.

(** A key that the counter object has keeps being counted. *)
Lemma fold_count_lookup assets acc level n :
  acc !! level = Some n ->
  fold_left count_step assets acc !! level
    = Some (n + level_count level assets).
Proof.
  unfold level_count, with_level.
  revert acc n. induction assets as [|a assets IH]; intros acc n Hacc; simpl.
  - rewrite Hacc. f_equal. lia.
  - rewrite filter_cons.
    destruct (decide (Asset.risk_level a = level)) as [Ha|Ha].
    + rewrite (IH (count_step acc a) (n + 1)).
      * f_equal. simpl. lia.
      * rewrite count_step_lookup, decide_True by exact Ha.
        rewrite Hacc. reflexivity.
    + apply IH. rewrite count_step_lookup, decide_False by exact Ha.
      exact Hacc.
Qed.

Lemma risk_counts_lookup assets level :
  known_level level ->
  risk_counts assets !! level = Some (level_count level assets).
Proof.
  intros Hlevel. unfold risk_counts.
  rewrite (fold_count_lookup assets _ level 0).
  - f_equal.
  - destruct Hlevel as [->|[->| ->]]; reflexivity.
Qed.

Lemma level_count_total assets :
  known_levels assets ->
  level_count "Green" assets + level_count "Yellow" assets
    + level_count "Red" assets = Z.of_nat (List.length assets).
Proof.
  unfold level_count, with_level.
  induction 1 as [|a l Ha _ IH]; [reflexivity|].
  rewrite !filter_cons.
  destruct Ha as [Ha|[Ha|Ha]]; rewrite Ha; simpl; lia.
Qed.
End HealthSummary.

(** C4, as the code has it: for every non-empty registry whose assets all
    have one of the three risk levels, the health summary shows exactly the
    three buckets Green, Yellow, Red, each with the number of assets of that
    level (0 for a level without assets), and the three counts add up to the
    number of assets. *)
Theorem health_summary_three_buckets (assets : list Asset.t) :
  assets <> [] -> known_levels assets -> shows_three_buckets assets.
Proof.
  intros Hne Hk. split; [|apply level_count_total, Hk].
  unfold HealthSummaryView. destruct assets as [|a assets]; [congruence|].
  rewrite !risk_counts_lookup by (unfold known_level; auto).
  reflexivity.
Qed.

(** Two of the three levels have no asset. *)
Lemma health_summary_three_buckets_witness :
  HealthSummaryView [asset_R1; asset_R2] =
    Rendered
      [ mkBucket "Healthy" "Green" (Some 0);
        mkBucket "Monitoring Required" "Yellow" (Some 0);
        mkBucket "Critical" "Red" (Some 2) ].
Proof.
  refine (proj1 (health_summary_three_buckets [asset_R1; asset_R2] _ _)).
  - discriminate.
  - unfold known_levels, known_level.
    repeat (apply Forall_cons; split; [simpl; auto|]). constructor.
Defined.

(** The empty registry satisfies the premise of C4, and the view shows its
    placeholder instead of three buckets with count 0. *)
Lemma health_summary_empty_registry :
  known_levels [] /\ HealthSummaryView [] = NoAssets /\ ~ shows_three_buckets [].
Proof.
  split; [constructor|]. split; [reflexivity|].
  intros [Hview _]. discriminate Hview.
Qed.

(** ** Facts about binary64 arithmetic

    The primitive operations are specified by the axioms of the standard
    library's [FloatAxioms], through [Prim2SF]. *)

Section FloatFacts.
Implicit Types (x y : float).

Lemma SFeqb_refl (s : spec_float) : s <> S754_nan -> SFeqb s s = true.
Proof.
  unfold SFeqb, SFcompare.
  destruct s as [[]|[]| |[] m e]; try reflexivity; try congruence; intros _.
  all: rewrite Z.compare_refl, Pos.compare_cont_refl; reflexivity.
Qed.

Lemma is_nan_spec x :
  PrimFloat.is_nan x = match Prim2SF x with S754_nan => true | _ => false end.
Proof.
  unfold PrimFloat.is_nan. rewrite FloatAxioms.eqb_spec.
  destruct (Prim2SF x) eqn:E; try reflexivity.
  all: rewrite SFeqb_refl by discriminate; reflexivity.
Qed.

Lemma is_zero_spec x :
  PrimFloat.is_zero x = match Prim2SF x with S754_zero _ => true | _ => false end.
Proof.
  unfold PrimFloat.is_zero. rewrite FloatAxioms.eqb_spec.
  change (Prim2SF PrimFloat.zero) with (S754_zero false).
  destruct (Prim2SF x) as [[]|[]| |[] m e]; reflexivity.
Qed.

Lemma is_infinity_spec x :
  PrimFloat.is_infinity x
    = match Prim2SF x with S754_infinity _ => true | _ => false end.
Proof.
  unfold PrimFloat.is_infinity. rewrite FloatAxioms.eqb_spec, abs_spec.
  change (Prim2SF PrimFloat.infinity) with (S754_infinity false).
  destruct (Prim2SF x) as [[]|[]| |[] m e]; reflexivity.
Qed.

Lemma is_finite_spec x :
  PrimFloat.is_finite x
    = match Prim2SF x with
      | S754_zero _ | S754_finite _ _ _ => true
      | _ => false
      end.
Proof.
  unfold PrimFloat.is_finite. rewrite is_nan_spec, is_infinity_spec.
  destruct (Prim2SF x); reflexivity.
Qed.

(** Dividing by a zero never gives a finite number. *)
Lemma div_by_zero_not_finite x y :
  PrimFloat.is_zero y = true -> PrimFloat.is_finite (x / y) = false.
Proof.
  rewrite is_zero_spec, is_finite_spec, div_spec.
  destruct (Prim2SF y); try discriminate. intros _.
  destruct (Prim2SF x); reflexivity.
Qed.

(** Rounding a non-negative mantissa never produces [NaN]. *)
Section Rounding.
Variables prec emax : Z.

Lemma shr_1_nonneg mrs : 0 <= shr_m mrs -> 0 <= shr_m (shr_1 mrs).
Proof.
  destruct mrs as [m r s]. simpl. intros Hm.
  destruct m as [|p|p]; simpl; try lia.
  destruct p; simpl; lia.
Qed.

Lemma iter_shr_1_nonneg p mrs :
  0 <= shr_m mrs -> 0 <= shr_m (SpecFloat.iter_pos shr_1 p mrs).
Proof.
  revert mrs. induction p as [p IH|p IH|]; intros mrs Hm; simpl.
  - apply IH, IH, shr_1_nonneg, Hm.
  - apply IH, IH, Hm.
  - apply shr_1_nonneg, Hm.
Qed.

Lemma shr_fexp_nonneg m e l :
  0 <= m -> 0 <= shr_m (fst (shr_fexp prec emax m e l)).
Proof.
  intros Hm. unfold shr_fexp, shr.
  assert (H0 : 0 <= shr_m (shr_record_of_loc m l)).
  { destruct l as [|[]]; exact Hm. }
  destruct (_ - e) as [|p|p]; simpl; try exact H0.
  apply iter_shr_1_nonneg, H0.
Qed.

Lemma round_nearest_even_nonneg m l : 0 <= m -> 0 <= round_nearest_even m l.
Proof.
  intros Hm. unfold round_nearest_even.
  destruct l as [|[]]; try destruct (Z.even m); lia.
Qed.

Lemma binary_round_aux_not_nan sx mx ex lx :
  0 <= mx -> binary_round_aux prec emax sx mx ex lx <> S754_nan.
Proof.
  intros Hm. unfold binary_round_aux.
  pose proof (shr_fexp_nonneg mx ex lx Hm) as H1.
  destruct (shr_fexp prec emax mx ex lx) as [mrs' e']. simpl in H1.
  pose proof (shr_fexp_nonneg _ e' loc_Exact
                (round_nearest_even_nonneg _ (loc_of_shr_record mrs') H1)) as H2.
  destruct (shr_fexp prec emax _ e' loc_Exact) as [mrs'' e'']. simpl in H2.
  destruct (shr_m mrs'') as [|p|p]; try discriminate; [|lia].
  destruct (e'' <=? emax - prec); discriminate.
Qed.

End Rounding.

Lemma binary_round_not_nan sx mx ex :
  binary_round prec emax sx mx ex <> S754_nan.
Proof.
  unfold binary_round. destruct (shl_align _ _ _) as [mz ez].
  apply binary_round_aux_not_nan. lia.
Qed.

Lemma binary_normalize_not_nan m e sz :
  binary_normalize prec emax m e sz <> S754_nan.
Proof.
  destruct m; simpl; try discriminate; apply binary_round_not_nan.
Qed.

Lemma SFldexp_not_nan v e :
  v <> S754_nan -> SFldexp prec emax v e <> S754_nan.
Proof.
  destruct v; simpl; auto. intros _. apply binary_round_not_nan.
Qed.

(** Converting anything but [NaN] to a primitive float gives a number. *)
Lemma SF2Prim_not_nan (s : spec_float) :
  s <> S754_nan -> PrimFloat.is_nan (SF2Prim s) = false.
Proof.
  intros Hs. destruct s as [[]|[]| |sx m e]; try reflexivity; [congruence|].
  unfold SF2Prim.
  assert (H : PrimFloat.is_nan
                (FloatOps.Z.ldexp (of_uint63 (Uint63.of_Z (Z.pos m))) e) = false).
  { rewrite is_nan_spec. unfold FloatOps.Z.ldexp.
    rewrite ldshiftexp_spec, of_uint63_spec.
    match goal with
    | |- context [SFldexp _ _ ?v ?k] =>
        pose proof (SFldexp_not_nan v k (binary_normalize_not_nan _ _ _)) as Hn;
        destruct (SFldexp prec emax v k)
    end; try reflexivity. congruence. }
  destruct sx; [|exact H].
  rewrite is_nan_spec, opp_spec. rewrite is_nan_spec in H.
  destruct (Prim2SF _); try reflexivity. discriminate.
Qed.

Lemma opp_is_nan x : PrimFloat.is_nan (- x) = PrimFloat.is_nan x.
Proof.
  rewrite !is_nan_spec, opp_spec. destruct (Prim2SF x); reflexivity.
Qed.

End FloatFacts.

(** ** C5 and C6: feature derivation *)

Section OneHot.
Variable f : Form.t.

Lemma type_l_one : Payload.type_l (build_payload f) = 1 <-> Form.type f = "L".
Proof.
  simpl. destruct (String.eqb_spec (Form.type f) "L"); split;
    intros; (reflexivity || assumption || lia || contradiction).
Qed.

Lemma type_l_zero : Payload.type_l (build_payload f) = 0 <-> Form.type f <> "L".
Proof.
  simpl. destruct (String.eqb_spec (Form.type f) "L"); split;
    intros; (reflexivity || assumption || lia || contradiction).
Qed.

Lemma type_m_one : Payload.type_m (build_payload f) = 1 <-> Form.type f = "M".
Proof.
  simpl. destruct (String.eqb_spec (Form.type f) "M"); split;
    intros; (reflexivity || assumption || lia || contradiction).
Qed.

Lemma type_m_zero : Payload.type_m (build_payload f) = 0 <-> Form.type f <> "M".
Proof.
  simpl. destruct (String.eqb_spec (Form.type f) "M"); split;
    intros; (reflexivity || assumption || lia || contradiction).
Qed.
End OneHot.

(** C5: the payload is a function of the form alone. Power is speed times
    torque, the temperature difference is process minus air temperature,
    power-wear is power times tool wear, temperature-power is the
    temperature difference divided by power; [type_l] is 1 exactly for type
    L and [type_m] is 1 exactly for type M, otherwise they are 0; they are
    never both 1, and for a type among H, L, M both are 0 exactly for H. *)
Theorem feature_derivation (f : Form.t) :
  let p := build_payload f in
  Payload.power p = (Form.rotational_speed_rpm f * Form.torque_nm f)%float
  /\ Payload.temperature_difference p
       = (Form.process_temperature_k f - Form.air_temperature_k f)%float
  /\ Payload.power_wear p = (Payload.power p * Form.tool_wear_min f)%float
  /\ Payload.temperature_power p
       = (Payload.temperature_difference p / Payload.power p)%float
  /\ (Payload.type_l p = 1 <-> Form.type f = "L")
  /\ (Payload.type_l p = 0 <-> Form.type f <> "L")
  /\ (Payload.type_m p = 1 <-> Form.type f = "M")
  /\ (Payload.type_m p = 0 <-> Form.type f <> "M")
  /\ ~ (Payload.type_l p = 1 /\ Payload.type_m p = 1)
  /\ (Form.type f = "H" \/ Form.type f = "L" \/ Form.type f = "M" ->
      (Payload.type_l p = 0 /\ Payload.type_m p = 0 <-> Form.type f = "H"))
  /\ (forall (r : response) (st1 st2 : AppState),
        form st1 = f -> form st2 = f ->
        snd (handleSubmit r st1) = [POST_predict p]
        /\ snd (handleSubmit r st2) = [POST_predict p]).
Proof.
  intros p. subst p.
  split; [reflexivity|]. split; [reflexivity|].
  split; [reflexivity|]. split; [reflexivity|].
  split; [apply type_l_one|]. split; [apply type_l_zero|].
  split; [apply type_m_one|]. split; [apply type_m_zero|].
  split; [|split].
  - rewrite type_l_one, type_m_one. intros [HL HM]. congruence.
  - rewrite type_l_zero, type_m_zero. intros [H|[H|H]]; rewrite H; split.
    + reflexivity.
    + intros _. split; discriminate.
    + intros [HL _]. congruence.
    + discriminate.
    + intros [_ HM]. congruence.
    + discriminate.
  - intros r st1 st2 H1 H2. unfold handleSubmit. simpl.
    rewrite H1, H2. split; reflexivity.
Qed.

Lemma feature_derivation_witness :
  Payload.type_l (build_payload initial_form) = 0
  /\ Payload.type_m (build_payload initial_form) = 0.
Proof.
  destruct (feature_derivation initial_form)
    as (_ & _ & _ & _ & _ & _ & _ & _ & _ & Hh & _).
  apply Hh; [left; reflexivity|reflexivity].
Defined.

(** The reading of the initial form: type H, 300 K, 310 K, 1500 rpm,
    40 Nm, 5 min. *)
Example derived_features_initial_form :
  let p := build_payload initial_form in
  Payload.power p = 60000%float
  /\ Payload.temperature_difference p = 10%float
  /\ Payload.power_wear p = 300000%float
  /\ Payload.temperature_power p = (10 / 60000)%float
  /\ JsNumber.isFinite (Payload.temperature_power p) = true
  /\ Payload.type_l p = 0 /\ Payload.type_m p = 0.
Proof. vm_compute. repeat split. Qed.




(** ** C7: a failed scoring call *)

(** C7: when the scoring call is rejected, whatever the cause, the same
    fixed message, [Failed to fetch prediction. Check API connection.], is
    stored in [error], where the page shows it because it is not empty;
    the submission has issued its one request and no other, and the
    registry is the one from before the submission; this also holds when
    the call settles later, in whatever state the application then is. *)
Theorem failed_submission_leaves_registry (st : AppState) (backend : option string) :
  let st' := fst (handleSubmit (Rejected backend) st) in
  assets st' = assets st
  /\ error st' = "Failed to fetch prediction. Check API connection."
  /\ error st' <> EmptyString
  /\ error st' = submit_error_message
  /\ snd (handleSubmit (Rejected backend) st)
       = [POST_predict (build_payload (form st))]
  /\ result st' = None
  /\ loading st' = false
  /\ form st' = form st
  /\ (forall (f : Form.t) (later : AppState),
        assets (handleSubmit_settle f (Rejected backend) later) = assets later
        /\ error (handleSubmit_settle f (Rejected backend) later)
             = "Failed to fetch prediction. Check API connection.").
Proof.
  cbv zeta. split_and!; try reflexivity; try discriminate.
  intros f later. split; reflexivity.
Qed.

(** ** The string primitives and [parseFloat] on samples *)

Example split_lines_samples :
  JsString.split_lines (String "a" (String "013" (String "010" "b"))) = ["a"; "b"]
  /\ JsString.split_lines (String "a" (String "010" (String "010" "b")))
       = ["a"; EmptyString; "b"]
  /\ JsString.split_lines (String "a" (String "013" "b"))
       = [String "a" (String "013" "b")]
  /\ JsString.split_lines EmptyString = [EmptyString].
Proof. repeat split. Qed.

Example csv_cells_samples :
  csv_cells "UDI, Type ,Torque [Nm]" = ["UDI"; "Type"; "Torque [Nm]"]
  /\ csv_cells (String "034" (String "a" (String "034" ",b,")))
       = ["a"; "b"; EmptyString]
  /\ JsString.strip_quotes (String "034" EmptyString) = EmptyString
  /\ JsString.strip_quotes (String "a" (String "034" "b"))
       = String "a" (String "034" "b")
  /\ JsString.trim (String "009" " a b  ") = "a b".
Proof. repeat split. Qed.

Section ParseFloat.
Lemma round_decimal_not_nan (m e : Z) :
  JsNumber.isNaN (JsNumber.round_decimal m e) = false.
Proof.
  unfold JsNumber.isNaN, JsNumber.round_decimal.
  destruct (m =? 0); [reflexivity|].
  destruct (0 <=? e); [apply SF2Prim_not_nan, binary_normalize_not_nan|].
  destruct (Z.div_eucl _ _) as [q r].
  apply SF2Prim_not_nan, binary_normalize_not_nan.
Qed.

Lemma literal_value_not_nan (l : JsNumber.unsigned_literal) :
  JsNumber.isNaN (JsNumber.literal_value l) = false.
Proof. destruct l; [reflexivity|apply round_decimal_not_nan]. Qed.

(** [parseFloat] gives [NaN] exactly for text without a numeric prefix. *)
Lemma parseFloat_nan_iff (s : string) :
  JsNumber.isNaN (JsNumber.parseFloat_string s) = true
  <-> JsNumber.numeric_prefix s = None.
Proof.
  unfold JsNumber.parseFloat_string.
  destruct (JsNumber.numeric_prefix s) as [[neg l]|]; [|split; reflexivity].
  split; [|discriminate]. intros Hnan. exfalso.
  pose proof (literal_value_not_nan l) as Hl.
  unfold JsNumber.isNaN in *. destruct neg; [rewrite opp_is_nan in Hnan|];
    congruence.
Qed.

Lemma parseFloat_no_prefix (s : string) :
  JsNumber.numeric_prefix s = None ->
  JsNumber.isNaN (JsNumber.parseFloat_string s) = true.
Proof. apply parseFloat_nan_iff. Qed.

Lemma parseFloat_null : JsNumber.isNaN (JsNumber.parseFloat JNull) = true.
Proof. reflexivity. Qed.

Lemma parseFloat_undefined : JsNumber.isNaN (JsNumber.parseFloat JUndefined) = true.
Proof. reflexivity. Qed.

(** The conversion agrees with the literals of the proof assistant on
    values of every kind: integers, fractions, exponents, the largest
    number, overflow, subnormals and the smallest one, a tie that rounds to
    even, text after the number. *)
Example parseFloat_samples :
  JsNumber.parseFloat_string "300" = 300%float
  /\ JsNumber.parseFloat_string "  42.75" = 42.75%float
  /\ JsNumber.parseFloat_string "-0.5e1x" = (-5)%float
  /\ JsNumber.parseFloat_string ".5" = 0.5%float
  /\ JsNumber.parseFloat_string "1.e2" = 100%float
  /\ JsNumber.parseFloat_string "0.1" = 0x1.999999999999ap-4%float
  /\ JsNumber.parseFloat_string "298.1" = 0x1.2a1999999999ap+8%float
  /\ JsNumber.parseFloat_string "1.7976931348623157e308" = 0x1.fffffffffffffp+1023%float
  /\ JsNumber.parseFloat_string "1e309" = infinity
  /\ JsNumber.parseFloat_string "-Infinity" = neg_infinity
  /\ JsNumber.parseFloat_string "1e-320" = 0x0.00000000007e8p-1022%float
  /\ JsNumber.parseFloat_string "5e-324" = 0x0.0000000000001p-1022%float
  /\ JsNumber.parseFloat_string "2.4703282292062327e-324" = 0%float
  /\ JsNumber.parseFloat_string "2.4703282292062328e-324" = 0x0.0000000000001p-1022%float
  /\ JsNumber.parseFloat_string "9007199254740993" = 9007199254740992%float
  /\ JsNumber.parseFloat_string "-0" = (-0)%float
  /\ JsNumber.isNaN (JsNumber.parseFloat_string "abc") = true
  /\ JsNumber.isNaN (JsNumber.parseFloat_string ".e5") = true
  /\ JsNumber.isNaN (JsNumber.parseFloat_string EmptyString) = true.
Proof. vm_compute. repeat split. Qed.
End ParseFloat.

(** ** C8 and C9: tabular ingestion *)

Section Csv.
Implicit Types (header row : list string) (get : string -> jsval).

Lemma indexOf_None header c :
  JsString.indexOf header c = None <-> c ∉ header.
Proof.
  induction header as [|h header IH]; simpl.
  - split; [intros _; apply not_elem_of_nil|reflexivity].
  - rewrite not_elem_of_cons. destruct (String.eqb_spec h c) as [->|Hne].
    + split; [discriminate|]. intros [Hc _]. congruence.
    + destruct (JsString.indexOf header c) as [i|]; simpl.
      * split; [discriminate|]. intros [_ Hc]. apply IH in Hc. discriminate.
      * split; [|reflexivity]. intros _. split; [congruence|]. apply IH. reflexivity.
Qed.

(** An absent column reads as [null]: falsy, and [NaN] as a number. *)
Lemma csv_get_missing header row c :
  c ∉ header -> csv_get header row c = JNull.
Proof.
  intros Hc. unfold csv_get. rewrite (proj2 (indexOf_None header c) Hc).
  reflexivity.
Qed.

Lemma csv_uid_falsy get :
  truthy (csv_uid get) = false <->
  (forall c, c ∈ uid_columns -> truthy (get c) = false).
Proof.
  unfold csv_uid, js_or, uid_columns. split.
  - destruct (truthy (get "UDI")) eqn:H1; cbv iota.
    { rewrite H1. cbv iota. rewrite H1. discriminate. }
    destruct (truthy (get "uid")) eqn:H2; cbv iota.
    { rewrite H2. discriminate. }
    intros H c Hc.
    repeat (apply elem_of_cons in Hc as [->|Hc]; [assumption|]).
    apply elem_of_nil in Hc. contradiction.
  - intros H.
    rewrite (H "UDI") by (repeat constructor).
    rewrite (H "uid") by (repeat constructor).
    apply H. repeat constructor.
Qed.

Lemma csv_rejects_true get :
  csv_rejects get = true <->
  (truthy (csv_uid get) = false
   \/ exists c, c ∈ numeric_columns
                /\ JsNumber.isNaN (JsNumber.parseFloat (get c)) = true).
Proof.
  unfold csv_rejects, numeric_columns.
  rewrite !orb_true_iff, negb_true_iff. split.
  - intros [[[[[H|H]|H]|H]|H]|H]; [left; exact H|right..];
      eexists; (split; [|exact H]); repeat constructor.
  - intros [H|(c & Hc & H)]; [tauto|].
    repeat (apply elem_of_cons in Hc as [->|Hc]; [tauto|]).
    apply elem_of_nil in Hc. contradiction.
Qed.

Lemma csv_unusable_rejects header row :
  csv_unusable header (csv_get header row) ->
  csv_rejects (csv_get header row) = true.
Proof.
  intros [Huid|(c & Hc & Hbad)]; apply csv_rejects_true.
  - left. apply csv_uid_falsy. intros c Hc.
    destruct (Huid c Hc) as [Hmiss|Hfalsy]; [|exact Hfalsy].
    rewrite (csv_get_missing header row c Hmiss). reflexivity.
  - right. exists c. split; [exact Hc|].
    destruct Hbad as [Hmiss|Hnan]; [|exact Hnan].
    rewrite (csv_get_missing header row c Hmiss). reflexivity.
Qed.

Lemma csv_rejects_unusable header row :
  csv_rejects (csv_get header row) = true ->
  csv_unusable header (csv_get header row).
Proof.
  intros [H|(c & Hc & H)]%csv_rejects_true.
  - left. intros c Hc. right. revert c Hc. apply csv_uid_falsy, H.
  - right. exists c. auto.
Qed.

(** The type read from the row is always one of H, L, M; it is H when
    the cell is absent or empty, and when it holds anything but H, L, M. *)
Lemma csv_type_normalised get :
  (csv_type get = "H" \/ csv_type get = "L" \/ csv_type get = "M")
  /\ (truthy (get "Type") = false -> csv_type get = "H")
  /\ (forall raw, get "Type" = JStr raw ->
        JsString.trim raw <> "H" -> JsString.trim raw <> "L" ->
        JsString.trim raw <> "M" -> csv_type get = "H").
Proof.
  unfold csv_type, JsString.includes. simpl. split_and!.
  - destruct (String.eqb_spec (JsString.trim (ToString (js_or (get "Type") (JStr "H")))) "L") as [->|];
      [simpl; auto|].
    destruct (String.eqb_spec (JsString.trim (ToString (js_or (get "Type") (JStr "H")))) "M") as [->|];
      [simpl; auto|].
    destruct (String.eqb_spec (JsString.trim (ToString (js_or (get "Type") (JStr "H")))) "H") as [->|];
      simpl; auto.
  - unfold js_or. intros ->. reflexivity.
  - intros raw Hraw HH HL HM. rewrite Hraw. unfold js_or.
    destruct raw as [|c raw]; [reflexivity|]. simpl truthy. cbv iota.
    simpl ToString.
    destruct (String.eqb_spec (JsString.trim (String c raw)) "L"); [contradiction|].
    destruct (String.eqb_spec (JsString.trim (String c raw)) "M"); [contradiction|].
    destruct (String.eqb_spec (JsString.trim (String c raw)) "H"); [contradiction|].
    reflexivity.
Qed.

Lemma handleCsvUpload_onload text line0 line1 more st :
  JsString.split_lines (JsString.trim text) = line0 :: line1 :: more ->
  let get := csv_get (csv_cells line0) (csv_cells line1) in
  handleCsvUpload (Some (onload (Some text))) st =
    (if csv_rejects get then setCsvError csv_columns_message st
     else setForm (fun _ => csv_form get) (setCsvError EmptyString st), []).
Proof.
  intros Hlines. unfold handleCsvUpload, reader_settle, reader_onload.
  rewrite Hlines. simpl. destruct (csv_rejects _); reflexivity.
Qed.
End Csv.

(** C8, as the code has it: a file of two or more lines with no usable
    machine id (every id column absent or empty) or with a numeric column
    that is absent or whose cell [parseFloat] turns into NaN is answered by
    the validation message alone: the form, the registry and every other
    piece of state stay as they were, and no request is issued. Otherwise
    the file is loaded without error, and a Type cell that is absent, empty
    or outside H, L, M is replaced by H. *)
Theorem csv_validation_error
        (text line0 line1 : string) (more : list string) (st : AppState) :
  JsString.split_lines (JsString.trim text) = line0 :: line1 :: more ->
  let header := csv_cells line0 in
  let get := csv_get header (csv_cells line1) in
  let st' := fst (handleCsvUpload (Some (onload (Some text))) st) in
  snd (handleCsvUpload (Some (onload (Some text))) st) = []
  /\ (csv_unusable header get ->
      st' = setCsvError csv_columns_message st
      /\ csvError st' =
           "Could not map CSV columns. Make sure it contains UDI, Air temperature [K], Process temperature [K], Rotational speed [rpm], Torque [Nm], Tool wear [min], Type."
      /\ form st' = form st /\ assets st' = assets st
      /\ result st' = result st /\ loading st' = loading st
      /\ error st' = error st /\ activePage st' = activePage st)
  /\ (~ csv_unusable header get ->
      csvError st' = EmptyString
      /\ form st' = csv_form get
      /\ (truthy (get "Type") = false -> Form.type (form st') = "H")
      /\ (forall raw, get "Type" = JStr raw ->
            JsString.trim raw <> "H" -> JsString.trim raw <> "L" ->
            JsString.trim raw <> "M" -> Form.type (form st') = "H")).
Proof.
  intros Hlines header get st'. subst st'.
  rewrite (handleCsvUpload_onload text line0 line1 more st Hlines).
  change (csv_get (csv_cells line0) (csv_cells line1)) with get.
  cbn [fst snd]. split; [reflexivity|]. split.
  - intros Hbad. pose proof (csv_unusable_rejects header _ Hbad) as Hrej.
    fold get in Hrej. rewrite Hrej. repeat split.
  - intros Hok. destruct (csv_rejects get) eqn:Hrej.
    { exfalso. apply Hok, csv_rejects_unusable, Hrej. }
    cbn [form csvError setForm setCsvError csv_form Form.type].
    split; [reflexivity|]. split; [reflexivity|].
    destruct (csv_type_normalised get) as (_ & Hfalsy & Hother).
    split; assumption.
Qed.

Lemma csv_validation_error_witness :
  fst (handleCsvUpload (Some (onload (Some csv_without_torque)))
         state_ABC_resubmit_B)
    = setCsvError csv_columns_message state_ABC_resubmit_B
  /\ Form.type (form (fst (handleCsvUpload
                             (Some (onload (Some csv_with_unknown_type)))
                             state_ABC_resubmit_B))) = "H".
Proof.
  split.
  - refine (proj1 (proj1 (proj2 (csv_validation_error csv_without_torque
                     _ _ [] state_ABC_resubmit_B _)) _)).
    + vm_compute. reflexivity.
    + right. exists "Torque [Nm]". split.
      * unfold numeric_columns. do 3 apply list_elem_of_further.
        apply list_elem_of_here.
      * left. apply indexOf_None. vm_compute. reflexivity.
  - refine (proj2 (proj2 (proj2 (proj2 (proj2 (csv_validation_error
                     csv_with_unknown_type _ _ [] state_ABC_resubmit_B _)) _)))
              "X" _ _ _ _).
    + vm_compute. reflexivity.
    + intros Hbad%csv_unusable_rejects. vm_compute in Hbad. discriminate Hbad.
    + vm_compute. reflexivity.
    + vm_compute. discriminate.
    + vm_compute. discriminate.
    + vm_compute. discriminate.
Defined.

(** A file without the Type column is loaded as a machine of type H. *)
Lemma csv_without_type_is_loaded :
  let st' := fst (handleCsvUpload (Some (onload (Some csv_without_type)))
                    initial_state) in
  "Type" ∈ required_columns
  /\ (exists line0 line1,
        JsString.split_lines (JsString.trim csv_without_type) = [line0; line1]
        /\ "Type" ∉ csv_cells line0)
  /\ csvError st' = EmptyString
  /\ form st' = Form.mk "7" 298.5 308.25 1551 42.75 0 "H"
  /\ ~ rejected_unchanged csv_without_type initial_state.
Proof.
  split_and!.
  - unfold required_columns, numeric_columns. simpl.
    do 5 apply list_elem_of_further. apply list_elem_of_here.
  - do 2 eexists. split; [vm_compute; reflexivity|].
    apply indexOf_None. vm_compute. reflexivity.
  - vm_compute. reflexivity.
  - vm_compute. reflexivity.
  - intros [Herr _]. vm_compute in Herr. discriminate Herr.
Qed.

(** C9: loading a file, whatever it holds, issues no request and leaves
    the registry, the last prediction result, the loading flag and the
    submission error as they were, so no view changes; a file that passes
    validation clears the CSV error and overwrites the form, and nothing
    else. The same holds for the two halves of the upload when other
    events come in between. *)
Theorem csv_ingestion_frame (file : option reader_event) (st : AppState) :
  let st' := fst (handleCsvUpload file st) in
  snd (handleCsvUpload file st) = []
  /\ assets st' = assets st
  /\ result st' = result st
  /\ loading st' = loading st
  /\ error st' = error st
  /\ activePage st' = activePage st
  /\ DetailedTableView (assets st') = DetailedTableView (assets st)
  /\ HealthSummaryView (assets st') = HealthSummaryView (assets st)
  /\ (forall text line0 line1 more,
        file = Some (onload (Some text)) ->
        JsString.split_lines (JsString.trim text) = line0 :: line1 :: more ->
        csv_rejects (csv_get (csv_cells line0) (csv_cells line1)) = false ->
        st' = mkApp (activePage st)
                    (csv_form (csv_get (csv_cells line0) (csv_cells line1)))
                    (result st) (loading st) (error st) EmptyString (assets st))
  /\ (forall (w w' : World) (e : event),
        e = PickFile \/ (exists ev, e = ReaderDone ev) ->
        step w e = Some w' ->
        assets (app w') = assets (app w)
        /\ result (app w') = result (app w)
        /\ in_flight w' = in_flight w).
Proof.
  intros st'.
  assert (Hframe : assets st' = assets st /\ result st' = result st
                   /\ loading st' = loading st /\ error st' = error st
                   /\ activePage st' = activePage st).
  { subst st'. destruct file as [ev|]; simpl; [|repeat split].
    apply (reader_settle_frame ev (setCsvError EmptyString st)). }
  destruct Hframe as (Ha & Hr & Hl & He & Hp).
  split_and!; try assumption.
  - destruct file; reflexivity.
  - rewrite Ha. reflexivity.
  - rewrite Ha. reflexivity.
  - intros text line0 line1 more -> Hlines Hok. subst st'.
    rewrite (handleCsvUpload_onload text line0 line1 more st Hlines).
    cbv zeta. rewrite Hok. reflexivity.
  - intros w w' e [->|[ev ->]] Hstep; simpl in Hstep.
    + injection Hstep as <-. repeat split.
    + destruct (reading w); [discriminate|]. injection Hstep as <-.
      destruct (reader_settle_frame ev (app w)) as (Ha' & Hr' & _).
      repeat split; assumption.
Qed.

Lemma csv_ingestion_frame_witness :
  fst (handleCsvUpload (Some (onload (Some csv_complete))) state_ABC_resubmit_B)
    = mkApp "single" (Form.mk "1" 298.5 308.25 1551 42.75 0 "M") None false
            EmptyString EmptyString [asset_A; asset_B; asset_C].
Proof.
  destruct (csv_ingestion_frame (Some (onload (Some csv_complete)))
              state_ABC_resubmit_B) as (_ & _ & _ & _ & _ & _ & _ & _ & H & _).
  rewrite (H csv_complete csv_header_line csv_data_line [] eq_refl);
    vm_compute; reflexivity.
Defined.

(** ** C10: manual entry *)



(** With the torque cleared every derived feature is NaN too. *)
Example cleared_torque_payload :
  let p := build_payload (form (handleChange "torque_nm" EmptyString initial_state)) in
  JsNumber.isNaN (Payload.torque_nm p) = true
  /\ JsNumber.isNaN (Payload.power p) = true
  /\ JsNumber.isNaN (Payload.power_wear p) = true
  /\ JsNumber.isNaN (Payload.temperature_power p) = true
  /\ JsNumber.isFinite (Payload.temperature_difference p) = true.
Proof. vm_compute. repeat split. Qed.

(** * Further properties of the registry *)

Section RegistryLaws.
Implicit Types (prev before rest : list Asset.t) (f : Form.t) (data : Prediction.t).

Lemma findIndex_split uid prev i :
  findIndex uid prev = Some i ->
  exists before old rest,
    prev = before ++ old :: rest /\ List.length before = i
    /\ Asset.id old = uid /\ (forall a, a ∈ before -> Asset.id a <> uid).
Proof.
  unfold findIndex. intros [[j old] [Hfind Hj]]%fmap_Some.
  simpl in Hj. subst j. apply list_find_Some in Hfind as (Hl & Hid & Hfirst).
  exists (take i prev), old, (drop (S i) prev). split_and!.
  - symmetry. apply take_drop_middle, Hl.
  - apply length_take_le. apply lookup_lt_Some in Hl. lia.
  - exact Hid.
  - intros a (k & Hk)%list_elem_of_lookup_1.
    assert (k < i)%nat.
    { apply lookup_lt_Some in Hk. rewrite length_take in Hk. lia. }
    rewrite lookup_take_lt in Hk by assumption. eapply Hfirst; eassumption.
Qed.

(** The registry after [upsert], in either case, as a split at the
    position written. *)
Lemma upsert_split f data prev :
  exists before rest,
    upsert f data prev = before ++ updatedAsset f data :: rest
    /\ List.length before = upsert_position (Form.uid f) prev
    /\ (forall a, a ∈ before -> Asset.id a <> Form.uid f)
    /\ (prev = before /\ rest = []
        \/ exists old, prev = before ++ old :: rest /\ Asset.id old = Form.uid f).
Proof.
  unfold upsert_position.
  destruct (findIndex (Form.uid f) prev) as [i|] eqn:Hfind.
  - destruct (findIndex_split _ _ _ Hfind) as (before & old & rest & -> & Hi & Hold & Hb).
    exists before, rest. split_and!; [|exact Hi|exact Hb|right; eauto].
    apply upsert_existing; assumption.
  - exists prev, []. pose proof (proj1 (findIndex_None _ _) Hfind) as Hfresh.
    split_and!; [|reflexivity|exact Hfresh|left; auto].
    apply upsert_fresh, Hfresh.
Qed.

Lemma upsert_same_uid f1 f2 data1 data2 prev :
  Form.uid f1 = Form.uid f2 ->
  upsert f2 data2 (upsert f1 data1 prev) = upsert f2 data2 prev.
Proof.
  intros Huid.
  destruct (upsert_split f1 data1 prev) as (before & rest & -> & _ & Hb & Hcase).
  rewrite Huid in Hb.
  rewrite (upsert_existing f2 data2 before (updatedAsset f1 data1) rest)
    by (assumption || exact Huid).
  destruct Hcase as [[-> ->]|(old & -> & Hold)].
  - symmetry. apply upsert_fresh, Hb.
  - symmetry. apply upsert_existing; [congruence|exact Hb].
Qed.

Lemma upsert_elem_of f data prev : updatedAsset f data ∈ upsert f data prev.
Proof.
  destruct (upsert_split f data prev) as (before & rest & -> & _).
  apply elem_of_app. right. apply list_elem_of_here.
Qed.
End RegistryLaws.

(** X1: a later successful submission for the same machine id erases the
    earlier one entirely: the registry is the one that the later submission
    alone would have produced. In particular submitting the same reading
    with the same prediction twice changes nothing the second time. *)
Theorem upsert_last_write_wins
        (f1 f2 : Form.t) (data1 data2 : Prediction.t) (prev : list Asset.t) :
  Form.uid f1 = Form.uid f2 ->
  upsert f2 data2 (upsert f1 data1 prev) = upsert f2 data2 prev
  /\ upsert f2 data2 (upsert f2 data2 prev) = upsert f2 data2 prev.
Proof.
  intros Huid. split; apply upsert_same_uid; [exact Huid|reflexivity].
Qed.

Lemma upsert_last_write_wins_witness :
  upsert (Form.mk "B" 301 311 1400 55 90 "M") (Prediction.mk 0.5 "Red")
         (upsert (Form.mk "B" 300 310 1500 40 5 "H") (Prediction.mk 0.25 "Yellow")
                 [asset_A; asset_B; asset_C])
    = [asset_A; asset_B'; asset_C].
Proof.
  rewrite (proj1 (upsert_last_write_wins
                    (Form.mk "B" 300 310 1500 40 5 "H")
                    (Form.mk "B" 301 311 1400 55 90 "M")
                    (Prediction.mk 0.25 "Yellow") (Prediction.mk 0.5 "Red")
                    [asset_A; asset_B; asset_C] eq_refl)).
  reflexivity.
Defined.

(** X2: after a successful submission the registry, searched for the
    submitted id, yields the asset just built, at the position of the
    machine's earlier record or else at the end; the registry has grown by
    one exactly when the id was new; the records before that position and
    the records after it are those of the registry before, in place and in
    order, so that, the submitted id left out, the registry reads as it
    did before, and so does its restriction to any other id. *)
Theorem upsert_then_find (f : Form.t) (data : Prediction.t) (prev : list Asset.t) :
  let after := upsert f data prev in
  let i := upsert_position (Form.uid f) prev in
  list_find (fun a => Asset.id a = Form.uid f) after = Some (i, updatedAsset f data)
  /\ List.length after
       = (if bool_decide (Form.uid f ∈ ids prev) then List.length prev
          else S (List.length prev))
  /\ (forall uid, uid <> Form.uid f ->
        filter (fun a => Asset.id a = uid) after
          = filter (fun a => Asset.id a = uid) prev)
  /\ after = take i prev ++ updatedAsset f data :: drop (S i) prev
  /\ filter (fun a => Asset.id a <> Form.uid f) after
       = filter (fun a => Asset.id a <> Form.uid f) prev.
Proof.
  intros after i. subst after i.
  destruct (upsert_split f data prev) as (before & rest & Hafter & Hlen & Hb & Hcase).
  rewrite Hafter, <- Hlen. split_and!.
  - apply list_find_Some. split_and!.
    + rewrite lookup_app_r by lia. rewrite Nat.sub_diag. reflexivity.
    + reflexivity.
    + intros j a Hj Hlt. rewrite lookup_app_l in Hj by lia.
      apply Hb. eapply list_elem_of_lookup_2, Hj.
  - rewrite <- Hafter.
    assert (Hlen' : List.length (upsert f data prev)
                    = List.length (ids (upsert f data prev)))
      by (unfold ids; rewrite length_fmap; reflexivity).
    rewrite Hlen', upsert_ids.
    destruct (bool_decide (Form.uid f ∈ ids prev)); unfold ids;
      rewrite ?length_app, !length_fmap; simpl; lia.
  - intros uid Hne. destruct Hcase as [[-> ->]|(old & -> & Hold)].
    + rewrite filter_app, filter_cons_False by (simpl; congruence).
      rewrite filter_nil, app_nil_r. reflexivity.
    + rewrite !filter_app, !filter_cons.
      rewrite !decide_False by (simpl; congruence). reflexivity.
  - destruct Hcase as [[-> ->]|(old & -> & Hold)].
    + rewrite take_ge, drop_ge by lia. reflexivity.
    + rewrite take_app_length. rewrite drop_app_ge by lia.
      replace (S (List.length before) - List.length before)%nat with 1%nat by lia.
      reflexivity.
  - destruct Hcase as [[-> ->]|(old & -> & Hold)].
    + rewrite filter_app, filter_cons_False by (simpl; tauto).
      rewrite filter_nil, app_nil_r. reflexivity.
    + rewrite !filter_app, !filter_cons.
      rewrite !decide_False by (simpl; tauto). reflexivity.
Qed.

(** * Properties of whole sessions *)

Section Sessions.
Implicit Types (w : World) (e : event) (es : list event).

(** What holds initially and is kept by every step holds after a run. *)
Lemma run_invariant (P : World -> Prop) :
  (forall w e w', P w -> step w e = Some w' -> P w') ->
  forall es w w', P w -> run w es = Some w' -> P w'.
Proof.
  intros Hstep. induction es as [|e es IH]; intros w w' Hw Hrun; simpl in Hrun.
  - injection Hrun as <-. exact Hw.
  - destruct (step w e) as [w1|] eqn:He; [|discriminate].
    apply (IH w1 w'); [|exact Hrun]. exact (Hstep w e w1 Hw He).
Qed.

Lemma run_app w es1 es2 :
  run w (es1 ++ es2) =
    match run w es1 with
    | Some w1 => run w1 es2
    | None => None
    end.
Proof.
  revert w. induction es1 as [|e es1 IH]; intros w; simpl; [reflexivity|].
  destruct (step w e); [apply IH|reflexivity].
Qed.

(** What a step does to the registry: nothing, or one upsert. *)
Lemma step_assets w e w' :
  step w e = Some w' ->
  assets (app w') = assets (app w)
  \/ exists i f data, e = Settle i (Fulfilled data)
                      /\ in_flight w !! i = Some f
                      /\ assets (app w') = upsert f data (assets (app w)).
Proof.
  destruct e as [page|name value| |i r| |ev]; simpl; intros Hstep.
  - injection Hstep as <-. left. reflexivity.
  - injection Hstep as <-. left. apply (handleChange_frame name value (app w)).
  - injection Hstep as <-. left. reflexivity.
  - destruct (in_flight w !! i) as [f|] eqn:Hf; [|discriminate].
    injection Hstep as <-. simpl. destruct r as [data|backend].
    + right. exists i, f, data. auto.
    + left. reflexivity.
  - injection Hstep as <-. left. reflexivity.
  - destruct (reading w); [discriminate|]. injection Hstep as <-. left.
    apply (reader_settle_frame ev (app w)).
Qed.

(** An edit changes neither the registry nor the pending submissions. *)
Lemma edit_frame w e w' :
  is_edit e = true -> step w e = Some w' ->
  assets (app w') = assets (app w) /\ in_flight w' = in_flight w.
Proof.
  destruct e as [page|name value| |i r| |ev]; simpl; try discriminate;
    intros _ Hstep.
  - injection Hstep as <-. split; reflexivity.
  - injection Hstep as <-. split; [|reflexivity].
    apply (handleChange_frame name value (app w)).
  - injection Hstep as <-. split; reflexivity.
  - destruct (reading w); [discriminate|]. injection Hstep as <-.
    split; [|reflexivity]. apply (reader_settle_frame ev (app w)).
Qed.

Lemma edits_frame es w w' :
  forallb is_edit es = true -> run w es = Some w' ->
  assets (app w') = assets (app w) /\ in_flight w' = in_flight w.
Proof.
  revert w. induction es as [|e es IH]; intros w Hes Hrun; simpl in *.
  - injection Hrun as <-. split; reflexivity.
  - apply andb_true_iff in Hes as [He Hes].
    destruct (step w e) as [w1|] eqn:Hstep; [|discriminate].
    destruct (edit_frame w e w1 He Hstep) as [Ha Hf].
    destruct (IH w1 Hes Hrun) as [Ha' Hf']. split; congruence.
Qed.
End Sessions.

(** X3: whatever happens in a session, the sequence of machine ids in the
    registry only grows at its end: no event removes an asset or moves one
    to another position. *)
Theorem registry_ids_only_grow (es : list event) (w w' : World) :
  run w es = Some w' ->
  ids (assets (app w)) `prefix_of` ids (assets (app w')).
Proof.
  intros Hrun.
  apply (run_invariant
           (fun w1 => ids (assets (app w)) `prefix_of` ids (assets (app w1))))
    with (es := es) (w := w); [|reflexivity|exact Hrun].
  intros w1 e w2 Hpre Hstep.
  destruct (step_assets w1 e w2 Hstep)
    as [->|(i & f & data & _ & _ & ->)]; [exact Hpre|].
  rewrite upsert_ids. case_bool_decide; [exact Hpre|].
  apply prefix_app_r, Hpre.
Qed.

Lemma registry_ids_only_grow_witness :
  exists w, run initial_world session_events = Some w
            /\ ids (assets (app initial_world)) `prefix_of` ids (assets (app w)).
Proof.
  eexists. split; [vm_compute; reflexivity|].
  apply (registry_ids_only_grow session_events). vm_compute. reflexivity.
Defined.

(** X4: in every state of a session, the prediction shown on the single
    page is the prediction recorded for some machine in the registry. *)
Theorem shown_result_is_recorded (es : list event) (w : World) :
  run initial_world es = Some w ->
  forall data, result (app w) = Some data ->
  exists a, a ∈ assets (app w)
            /\ Asset.failure_probability a = Prediction.failure_probability data
            /\ Asset.risk_level a = Prediction.risk_level data.
Proof.
  apply (run_invariant
           (fun w => forall data, result (app w) = Some data ->
              exists a, a ∈ assets (app w)
                /\ Asset.failure_probability a = Prediction.failure_probability data
                /\ Asset.risk_level a = Prediction.risk_level data)).
  - intros w0 e w1 Hinv Hstep.
    destruct e as [page|name value| |i r| |ev]; simpl in Hstep.
    + injection Hstep as <-. exact Hinv.
    + injection Hstep as <-. simpl.
      destruct (handleChange_frame name value (app w0)) as (-> & -> & _).
      exact Hinv.
    + injection Hstep as <-. simpl. discriminate.
    + destruct (in_flight w0 !! i) as [f|]; [|discriminate].
      injection Hstep as <-. destruct r as [data'|backend]; simpl.
      * intros data [= <-]. exists (updatedAsset f data').
        split; [apply upsert_elem_of|]. split; reflexivity.
      * exact Hinv.
    + injection Hstep as <-. exact Hinv.
    + destruct (reading w0); [discriminate|]. injection Hstep as <-. simpl.
      destruct (reader_settle_frame ev (app w0)) as (-> & -> & _). exact Hinv.
  - simpl. discriminate.
Qed.

Lemma shown_result_is_recorded_witness :
  exists w data a,
    run initial_world session_events = Some w
    /\ result (app w) = Some data
    /\ a ∈ assets (app w)
    /\ Asset.risk_level a = Prediction.risk_level data.
Proof.
  assert (Hrun : run initial_world session_events
                 = Some (default initial_world (run initial_world session_events)))
    by (vm_compute; reflexivity).
  destruct (shown_result_is_recorded session_events _ Hrun
              (Prediction.mk 0.0625 "Green")) as (a & Ha & _ & Hlevel).
  { vm_compute. reflexivity. }
  exists (default initial_world (run initial_world session_events)),
         (Prediction.mk 0.0625 "Green"), a.
  split; [exact Hrun|]. split; [vm_compute; reflexivity|]. split; assumption.
Defined.

(** X5: a response is filed under the form as it was when the operator
    submitted: whatever is typed, loaded or navigated while the call is
    pending, a fulfilled response upserts the asset built from the form
    of the moment of submission into the registry of that moment. *)
Theorem response_uses_submitted_form
        (w w' : World) (es : list event) (data : Prediction.t) :
  forallb is_edit es = true ->
  run w (Submit :: es ++ [Settle (List.length (in_flight w)) (Fulfilled data)])
    = Some w' ->
  assets (app w') = upsert (form (app w)) data (assets (app w))
  /\ result (app w') = Some data
  /\ in_flight w' = in_flight w.
Proof.
  intros Hes Hrun. simpl in Hrun. rewrite run_app in Hrun.
  destruct (run _ es) as [w1|] eqn:Hrun1; [|discriminate].
  destruct (edits_frame es _ w1 Hes Hrun1) as [Ha Hf]. simpl in Ha, Hf.
  simpl in Hrun. rewrite Hf in Hrun.
  rewrite lookup_app_r in Hrun by lia. rewrite Nat.sub_diag in Hrun.
  simpl in Hrun. injection Hrun as <-. simpl. rewrite Ha. split_and!; try reflexivity.
  rewrite delete_middle. apply app_nil_r.
Qed.

(** The operator submits machine B, then retypes the id and the torque
    while waiting. *)
Lemma response_uses_submitted_form_witness :
  exists w,
    run (mkWorld state_ABC_resubmit_B [] 0)
        (Submit :: [Change "uid" "Z"; Change "torque_nm" "1"]
                ++ [Settle 0 (Fulfilled (Prediction.mk 0.5 "Red"))]) = Some w
    /\ assets (app w) = [asset_A; asset_B'; asset_C].
Proof.
  eexists. split; [vm_compute; reflexivity|].
  refine (proj1 (response_uses_submitted_form
                   (mkWorld state_ABC_resubmit_B [] 0) _
                   [Change "uid" "Z"; Change "torque_nm" "1"]
                   (Prediction.mk 0.5 "Red") eq_refl _)).
  vm_compute. reflexivity.
Defined.

(** * Sessions on the rendered page *)

Section RenderedPage.
Implicit Types (w : World) (e : event) (es : list event).

Lemma ui_step_consistent w e w' :
  ui_consistent w -> ui_step w e = Some w' -> ui_consistent w'.
Proof.
  unfold ui_step. intros Hw. destruct (ui_enabled w e) eqn:Hen; [|discriminate].
  destruct e as [page|name value| |i r| |ev]; simpl; intros Hstep.
  - injection Hstep as <-. exact Hw.
  - injection Hstep as <-. unfold ui_consistent. simpl.
    destruct (handleChange_frame name value (app w)) as (_ & -> & -> & -> & _).
    exact Hw.
  - injection Hstep as <-. simpl in Hen.
    apply andb_true_iff in Hen as [_ Hidle]. apply negb_true_iff in Hidle.
    destruct Hw as [(Hnone & _)|(f & _ & Hload & _)]; [|congruence].
    right. exists (form (app w)). simpl. rewrite Hnone. auto.
  - destruct Hw as [(Hnone & _)|(f & Hone & Hload & Hres & Herr)].
    { rewrite Hnone in Hstep. rewrite lookup_nil in Hstep. discriminate. }
    rewrite Hone in Hstep. destruct i as [|i]; simpl in Hstep; [|discriminate].
    injection Hstep as <-. left. simpl. destruct r as [data|backend]; simpl.
    + rewrite Herr. auto.
    + rewrite Hres. auto.
  - injection Hstep as <-. exact Hw.
  - destruct (reading w); [discriminate|]. injection Hstep as <-.
    unfold ui_consistent. simpl.
    destruct (reader_settle_frame ev (app w)) as (_ & -> & -> & -> & _).
    exact Hw.
Qed.

Lemma ui_run_consistent es w w' :
  ui_consistent w -> ui_run w es = Some w' -> ui_consistent w'.
Proof.
  revert w. induction es as [|e es IH]; intros w Hw Hrun; simpl in Hrun.
  - injection Hrun as <-. exact Hw.
  - destruct (ui_step w e) as [w1|] eqn:He; [|discriminate].
    apply (IH w1); [|exact Hrun]. exact (ui_step_consistent w e w1 Hw He).
Qed.

Lemma initial_world_consistent : ui_consistent initial_world.
Proof. left. simpl. auto. Qed.
End RenderedPage.

(** X6: on the rendered page, whose submit button is disabled while
    loading, at most one scoring call is ever pending, and the loading
    flag is set exactly while one is. *)
Theorem at_most_one_pending_call (es : list event) (w : World) :
  ui_run initial_world es = Some w ->
  (List.length (in_flight w) <= 1)%nat
  /\ (loading (app w) = true <-> in_flight w <> []).
Proof.
  intros Hrun.
  destruct (ui_run_consistent es _ w initial_world_consistent Hrun)
    as [(-> & -> & _)|(f & -> & -> & _)]; simpl.
  - split; [lia|]. split; [discriminate|congruence].
  - split; [lia|]. split; [discriminate|reflexivity].
Qed.

Lemma at_most_one_pending_call_witness :
  exists w, ui_run initial_world ui_session_events = Some w
            /\ (List.length (in_flight w) <= 1)%nat.
Proof.
  eexists. split; [vm_compute; reflexivity|].
  apply (at_most_one_pending_call ui_session_events). vm_compute. reflexivity.
Defined.

(** X7: on the rendered page the single-asset panel never shows a
    prediction and the failure message together, and while a call is
    pending it shows neither. *)
Theorem never_result_and_error (es : list event) (w : World) :
  ui_run initial_world es = Some w ->
  (result (app w) = None \/ error (app w) = EmptyString)
  /\ (loading (app w) = true ->
      result (app w) = None /\ error (app w) = EmptyString
      /\ pieData (result (app w)) = []).
Proof.
  intros Hrun.
  destruct (ui_run_consistent es _ w initial_world_consistent Hrun)
    as [(_ & -> & Hone)|(f & _ & _ & -> & ->)].
  - split; [exact Hone|discriminate].
  - split; [left; reflexivity|]. intros _. repeat split.
Qed.

Lemma never_result_and_error_witness :
  exists w, ui_run initial_world ui_session_events = Some w
            /\ result (app w) = None
            /\ error (app w) = submit_error_message.
Proof.
  eexists. split; [vm_compute; reflexivity|].
  destruct (never_result_and_error ui_session_events
              (default initial_world (ui_run initial_world ui_session_events)))
    as [[Hres|Herr] _].
  - vm_compute. reflexivity.
  - split; [exact Hres|reflexivity].
  - vm_compute in Herr. discriminate Herr.
Defined.

(** X8: typing composes as expected: of two edits of the same input the
    later one wins, and edits of different inputs can be swapped. *)
Theorem handleChange_composes (n1 n2 v1 v2 : string) (st : AppState) :
  handleChange n1 v2 (handleChange n1 v1 st) = handleChange n1 v2 st
  /\ (n1 <> n2 ->
      handleChange n1 v1 (handleChange n2 v2 st)
        = handleChange n2 v2 (handleChange n1 v1 st)).
Proof.
  destruct st as [page [u air proc rpm torque wear ty] res ld err cerr reg].
  unfold handleChange, setForm, assign_string, assign_number. simpl.
  split.
  - repeat match goal with
           | |- context [String.eqb n1 ?c] =>
               destruct (String.eqb_spec n1 c); subst; simpl
           end; reflexivity.
  - intros Hne.
    repeat match goal with
           | |- context [String.eqb n1 ?c] =>
               destruct (String.eqb_spec n1 c); subst; simpl
           end;
    repeat match goal with
           | |- context [String.eqb n2 ?c] =>
               destruct (String.eqb_spec n2 c); subst; simpl
           end; (reflexivity || congruence).
Qed.

Lemma handleChange_composes_witness :
  handleChange "uid" "M7" (handleChange "torque_nm" "12.5" initial_state)
    = handleChange "torque_nm" "12.5" (handleChange "uid" "M7" initial_state).
Proof.
  apply (proj2 (handleChange_composes "uid" "torque_nm" "M7" "12.5" initial_state)).
  discriminate.
Defined.

(** * Properties of the views *)

Section Views.
Implicit Types (a : Asset.t) (assets : list Asset.t).

Lemma run_ids_NoDup (es : list event) (w : World) :
  run initial_world es = Some w -> NoDup (ids (assets (app w))).
Proof.
  apply (run_invariant (fun w => NoDup (ids (assets (app w))))).
  - intros w0 e w1 Hnd Hstep.
    destruct (step_assets w0 e w1 Hstep) as [->|(i & f & data & _ & _ & ->)];
      [exact Hnd|apply upsert_NoDup, Hnd].
  - constructor.
Qed.

Lemma card_keys_ids assets : card_keys (KpiCardsView assets) = ids assets.
Proof.
  destruct assets as [|a assets]; [reflexivity|].
  unfold KpiCardsView, card_keys, ids. rewrite <- list_fmap_compose. reflexivity.
Qed.

Lemma row_keys_ids assets :
  row_keys (DetailedTableBody assets) = ids (table_rows (DetailedTableView assets)).
Proof.
  unfold DetailedTableBody. destruct (DetailedTableView assets); [reflexivity|].
  unfold row_keys, ids, table_rows. rewrite <- list_fmap_compose. reflexivity.
Qed.

Lemma with_level_app level assets1 assets2 :
  with_level level (assets1 ++ assets2)
    = with_level level assets1 ++ with_level level assets2.
Proof. apply filter_app. Qed.

Lemma with_level_severity level r assets :
  RISK_ORDER !! level = Some r ->
  Forall (fun a => severity a = r) (with_level level assets).
Proof.
  intros Hr. apply Forall_forall. intros a [Ha _]%list_elem_of_filter.
  unfold severity. rewrite Ha, Hr. reflexivity.
Qed.

Lemma filter_all {A} (P : A -> Prop) `{!forall x, Decision (P x)} (l : list A) :
  Forall P l -> filter P l = l.
Proof.
  induction 1 as [|x l Hx _ IH]; [reflexivity|].
  rewrite filter_cons_True by exact Hx. f_equal. exact IH.
Qed.

Lemma filter_none {A} (P : A -> Prop) `{!forall x, Decision (P x)} (l : list A) :
  Forall (fun x => ~ P x) l -> filter P l = [].
Proof.
  induction 1 as [|x l Hx _ IH]; [reflexivity|].
  rewrite filter_cons_False by exact Hx. exact IH.
Qed.

Lemma color_or_unknown level fallback :
  ~ known_level level -> color_or level fallback = fallback.
Proof.
  unfold known_level, color_or, COLORS. intros Hk.
  rewrite !lookup_insert_ne by (intros <-; apply Hk; auto).
  rewrite lookup_singleton_ne by (intros <-; apply Hk; auto). reflexivity.
Qed.

Lemma color_or_known level fallback :
  known_level level ->
  color_or level fallback <> "#424242" /\ color_or level fallback <> "#9e9e9e".
Proof.
  intros [->|[->| ->]]; vm_compute; split; discriminate.
Qed.
End Views.

(** X9: a KPI card announces CRITICAL exactly for the level Red and
    Moderate Risk exactly for Yellow; every other level, recognised or not,
    is announced as Healthy. The card is red for every level other than
    Green and Yellow, so an asset whose level is none of the three is
    shown on a red card that says Healthy and Running smoothly, with the
    fallback colour as its light (for a level that is not the name of an
    inherited object member). *)
Theorem kpi_card_status (a : Asset.t) :
  let c := kpi_card a in
  let level := Asset.risk_level a in
  (KpiCard.status c = "CRITICAL" <-> level = "Red")
  /\ (KpiCard.status c = "Moderate Risk" <-> level = "Yellow")
  /\ (KpiCard.status c = "Healthy" <-> level <> "Red" /\ level <> "Yellow")
  /\ (KpiCard.background c = "linear-gradient(135deg,#c62828,#ef5350)"
      <-> level <> "Green" /\ level <> "Yellow")
  /\ (~ known_level level ->
      KpiCard.status c = "Healthy"
      /\ KpiCard.advice c = "Running smoothly"
      /\ KpiCard.background c = "linear-gradient(135deg,#c62828,#ef5350)"
      /\ (level ∉ Object_prototype_keys -> KpiCard.light c = "#424242")).
Proof.
  intros c level. subst c. unfold kpi_card. fold level. simpl.
  assert (Hlast : ~ known_level level ->
                  level <> "Red" /\ level <> "Yellow" /\ level <> "Green").
  { unfold known_level. intros Hk. split_and!; intros ->; apply Hk; auto. }
  destruct (String.eqb_spec level "Red") as [HR|HR];
    destruct (String.eqb_spec level "Yellow") as [HY|HY];
    destruct (String.eqb_spec level "Green") as [HG|HG];
    try congruence.
  all: split_and!;
    try (split; [intros H; try discriminate H; try assumption; try (split; congruence)
                |intros H; try reflexivity; try congruence; try tauto]).
  all: intros Hk; destruct (Hlast Hk) as (? & ? & ?); try contradiction.
  split_and!; try reflexivity. intros _. apply color_or_unknown, Hk.
Qed.

Lemma kpi_card_status_witness :
  KpiCard.status (kpi_card (Asset.mk "M9" "H" 40 300 5 0.75 "Orange")) = "Healthy"
  /\ KpiCard.background (kpi_card (Asset.mk "M9" "H" 40 300 5 0.75 "Orange"))
     = "linear-gradient(135deg,#c62828,#ef5350)".
Proof.
  destruct (kpi_card_status (Asset.mk "M9" "H" 40 300 5 0.75 "Orange"))
    as (_ & _ & _ & _ & H).
  destruct H as (Hs & _ & Hb & _).
  - unfold known_level. simpl. intros [H|[H|H]]; discriminate H.
  - split; assumption.
Defined.

(** X10: in every state of a session the keys of the KPI cards are the
    registry's ids in registry order, the keys of the table rows are the
    same ids in table order, and no key occurs twice in either view. *)
Theorem view_keys_unique (es : list event) (w : World) :
  run initial_world es = Some w ->
  let registry := assets (app w) in
  card_keys (KpiCardsView registry) = ids registry
  /\ row_keys (DetailedTableBody registry) ≡ₚ ids registry
  /\ NoDup (card_keys (KpiCardsView registry))
  /\ NoDup (row_keys (DetailedTableBody registry)).
Proof.
  intros Hrun registry. pose proof (run_ids_NoDup es w Hrun) as Hnd.
  fold registry in Hnd.
  assert (Hperm : row_keys (DetailedTableBody registry) ≡ₚ ids registry).
  { rewrite row_keys_ids, DetailedTableView_rows. unfold ids.
    apply fmap_Permutation, Array_sort_perm. }
  split_and!.
  - apply card_keys_ids.
  - exact Hperm.
  - rewrite card_keys_ids. exact Hnd.
  - rewrite Hperm. exact Hnd.
Qed.

Lemma view_keys_unique_witness :
  exists w, run initial_world session_events = Some w
            /\ NoDup (row_keys (DetailedTableBody (assets (app w)))).
Proof.
  eexists. split; [vm_compute; reflexivity|].
  apply (view_keys_unique session_events). vm_compute. reflexivity.
Defined.

(** X11: the icon of a table row is a square exactly for Red and a
    triangle exactly for Yellow, and a circle for every other level; for
    a level that is not the name of an inherited object member, its colour
    is the fallback grey exactly when the level is none of Green, Yellow,
    Red. A row with such a level therefore shows the circle of a healthy
    machine, in grey, on the green tint. *)
Theorem risk_icon_shapes (level : string) :
  (snd (riskIcon level) = square <-> level = "Red")
  /\ (snd (riskIcon level) = triangle <-> level = "Yellow")
  /\ (snd (riskIcon level) = circle <-> level <> "Red" /\ level <> "Yellow")
  /\ (forall a, Asset.risk_level a = level -> ~ known_level level ->
        snd (TableRow.icon (table_row a)) = circle
        /\ TableRow.backgroundColor (table_row a) = "rgba(76, 175, 80, 0.08)")
  /\ (level ∉ Object_prototype_keys ->
      (fst (riskIcon level) = "#9e9e9e" <-> ~ known_level level)).
Proof.
  assert (Hlast : ~ known_level level ->
                  level <> "Red" /\ level <> "Yellow" /\ level <> "Green").
  { unfold known_level. intros Hk. split_and!; intros ->; apply Hk; auto. }
  assert (Hshape : snd (riskIcon level)
                   = if String.eqb level "Red" then square
                     else if String.eqb level "Yellow" then triangle else circle)
    by reflexivity.
  split_and!.
  - rewrite Hshape. destruct (String.eqb_spec level "Red");
      [tauto|]. destruct (String.eqb_spec level "Yellow"); split; congruence.
  - rewrite Hshape. destruct (String.eqb_spec level "Red") as [->|];
      [split; discriminate|].
    destruct (String.eqb_spec level "Yellow"); split; congruence.
  - rewrite Hshape. destruct (String.eqb_spec level "Red") as [->|];
      [split; [discriminate|intros [? _]; congruence]|].
    destruct (String.eqb_spec level "Yellow") as [->|];
      [split; [discriminate|intros [_ ?]; congruence]|]. tauto.
  - intros a Ha Hk. unfold table_row. rewrite Ha. simpl.
    destruct (Hlast Hk) as (HR & HY & _).
    destruct (String.eqb_spec level "Red"); [contradiction|].
    destruct (String.eqb_spec level "Yellow"); [contradiction|].
    split; reflexivity.
  - intros _. simpl. split.
    + intros Hgrey Hk. apply (color_or_known level "#9e9e9e") in Hk. tauto.
    + apply color_or_unknown.
Qed.

Section ViewLaws.
Implicit Types (a : Asset.t) (assets : list Asset.t).

Lemma level_count_partition assets :
  level_count "Green" assets + level_count "Yellow" assets
    + level_count "Red" assets + Z.of_nat (List.length (unrecognised assets))
  = Z.of_nat (List.length assets).
Proof.
  unfold level_count, with_level, unrecognised.
  induction assets as [|a assets IH]; [reflexivity|].
  rewrite !filter_cons.
  destruct (decide (~ known_level (Asset.risk_level a))) as [Hk|Hk].
  - rewrite !decide_False by (intros H; apply Hk; unfold known_level; auto).
    simpl. lia.
  - apply dec_stable in Hk. destruct Hk as [Ha|[Ha|Ha]]; rewrite Ha; simpl; lia.
Qed.

(** The rows at or above a rank, and those below it, of a table that is
    the Red, Yellow and Green parts in this order. *)
Lemma by_level_at_or_above (k : Z) assets :
  filter (fun b => k <= severity b)
         (with_level "Red" assets ++ with_level "Yellow" assets
            ++ with_level "Green" assets)
  = (if decide (k <= 3) then with_level "Red" assets else [])
      ++ (if decide (k <= 2) then with_level "Yellow" assets else [])
      ++ (if decide (k <= 1) then with_level "Green" assets else []).
Proof.
  rewrite !filter_app.
  pose proof (with_level_severity "Red" 3 assets eq_refl) as HR.
  pose proof (with_level_severity "Yellow" 2 assets eq_refl) as HY.
  pose proof (with_level_severity "Green" 1 assets eq_refl) as HG.
  f_equal; [|f_equal]; case_decide;
    (apply filter_all || apply filter_none);
    (eapply Forall_impl; [eassumption|]); simpl; intros b Hb; lia.
Qed.

Lemma by_level_below (k : Z) assets :
  filter (fun b => severity b < k)
         (with_level "Red" assets ++ with_level "Yellow" assets
            ++ with_level "Green" assets)
  = (if decide (3 < k) then with_level "Red" assets else [])
      ++ (if decide (2 < k) then with_level "Yellow" assets else [])
      ++ (if decide (1 < k) then with_level "Green" assets else []).
Proof.
  rewrite !filter_app.
  pose proof (with_level_severity "Red" 3 assets eq_refl) as HR.
  pose proof (with_level_severity "Yellow" 2 assets eq_refl) as HY.
  pose proof (with_level_severity "Green" 1 assets eq_refl) as HG.
  f_equal; [|f_equal]; case_decide;
    (apply filter_all || apply filter_none);
    (eapply Forall_impl; [eassumption|]); simpl; intros b Hb; lia.
Qed.

Lemma with_level_single level a :
  with_level level [a] = if decide (Asset.risk_level a = level) then [a] else [].
Proof. unfold with_level. rewrite filter_cons, filter_nil. reflexivity. Qed.

Lemma ids_with_level_middle level before rest (old new : Asset.t) :
  Asset.id new = Asset.id old ->
  Asset.risk_level new = Asset.risk_level old ->
  ids (with_level level (before ++ new :: rest))
    = ids (with_level level (before ++ old :: rest)).
Proof.
  intros Hid Hlevel. unfold with_level, ids.
  rewrite !filter_app, !filter_cons, Hlevel.
  destruct (decide (Asset.risk_level old = level));
    rewrite !fmap_app, ?fmap_cons, ?Hid; reflexivity.
Qed.
End ViewLaws.

(** X12: for every non-empty registry, whatever levels its assets carry,
    the health summary shows the three buckets with the numbers of Green,
    Yellow and Red assets; an asset with any other level is counted in no
    bucket, so the three counts fall short of the size of the registry by
    the number of such assets. *)
Theorem health_summary_drops_unrecognised (assets : list Asset.t) :
  assets <> [] ->
  HealthSummaryView assets =
    Rendered
      [ mkBucket "Healthy" "Green" (Some (level_count "Green" assets));
        mkBucket "Monitoring Required" "Yellow" (Some (level_count "Yellow" assets));
        mkBucket "Critical" "Red" (Some (level_count "Red" assets)) ]
  /\ level_count "Green" assets + level_count "Yellow" assets
       + level_count "Red" assets
     = Z.of_nat (List.length assets) - Z.of_nat (List.length (unrecognised assets)).
Proof.
  intros Hne. split; [|pose proof (level_count_partition assets); lia].
  unfold HealthSummaryView. destruct assets as [|a assets]; [congruence|].
  rewrite !risk_counts_lookup by (unfold known_level; auto).
  reflexivity.
Qed.

Lemma health_summary_drops_unrecognised_witness :
  HealthSummaryView [asset_R1; Asset.mk "M9" "H" 40 300 5 0.75 "Orange"] =
    Rendered
      [ mkBucket "Healthy" "Green" (Some 0);
        mkBucket "Monitoring Required" "Yellow" (Some 0);
        mkBucket "Critical" "Red" (Some 1) ].
Proof.
  refine (proj1 (health_summary_drops_unrecognised _ _)). discriminate.
Defined.

(** X13: a machine added at the end of the registry enters the detailed
    table below every machine of the same or a higher severity and above
    every machine of a lower one; the other rows keep their order. *)
Theorem new_asset_table_position (assets : list Asset.t) (a : Asset.t) :
  known_levels assets -> known_level (Asset.risk_level a) ->
  let rows := table_rows (DetailedTableView assets) in
  table_rows (DetailedTableView (assets ++ [a]))
    = filter (fun b => severity a <= severity b) rows
        ++ a :: filter (fun b => severity b < severity a) rows.
Proof.
  intros Hk Ha rows. subst rows.
  assert (Hk' : known_levels (assets ++ [a])).
  { unfold known_levels. apply Forall_app. split; [exact Hk|].
    constructor; [exact Ha|constructor]. }
  rewrite !DetailedTableView_rows.
  rewrite (Array_sort_by_level _ Hk'), (Array_sort_by_level _ Hk).
  rewrite by_level_at_or_above, by_level_below.
  rewrite !with_level_app, !with_level_single.
  unfold severity.
  destruct Ha as [Ha|[Ha|Ha]]; rewrite Ha; simpl;
    rewrite ?app_nil_r, <- ?app_assoc; reflexivity.
Qed.

Lemma new_asset_table_position_witness :
  table_rows (DetailedTableView ([asset_G; asset_R1; asset_Y] ++ [asset_R2]))
    = [asset_R1; asset_R2; asset_Y; asset_G].
Proof.
  rewrite (new_asset_table_position [asset_G; asset_R1; asset_Y] asset_R2).
  - reflexivity.
  - unfold known_levels, known_level.
    repeat (apply Forall_cons; split; [simpl; auto|]). constructor.
  - unfold known_level. simpl. auto.
Defined.

(** X14: scoring a machine again without a change of its risk level
    leaves the order of the detailed table as it was: the row of every
    machine, the rescored one included, stays where it is. *)
Theorem rescoring_keeps_table_order
        (before rest : list Asset.t) (old new : Asset.t) :
  known_levels (before ++ old :: rest) ->
  Asset.id new = Asset.id old ->
  Asset.risk_level new = Asset.risk_level old ->
  ids (table_rows (DetailedTableView (before ++ new :: rest)))
    = ids (table_rows (DetailedTableView (before ++ old :: rest))).
Proof.
  intros Hk Hid Hlevel.
  assert (Hk' : known_levels (before ++ new :: rest)).
  { unfold known_levels in *. apply Forall_app in Hk as [Hb Hr].
    apply Forall_cons in Hr as [Ho Hr]. apply Forall_app. split; [exact Hb|].
    constructor; [rewrite Hlevel; exact Ho|exact Hr]. }
  rewrite !DetailedTableView_rows.
  rewrite (Array_sort_by_level _ Hk'), (Array_sort_by_level _ Hk).
  unfold ids. rewrite !fmap_app. fold (ids (with_level "Red" (before ++ new :: rest))).
  change (Asset.id <$> ?l) with (ids l).
  rewrite !(ids_with_level_middle _ before rest old new Hid Hlevel).
  reflexivity.
Qed.

Lemma rescoring_keeps_table_order_witness :
  ids (table_rows (DetailedTableView
                     ([asset_A] ++ Asset.mk "B" "M" 55 301 90 0.0625 "Green"
                                :: [asset_C])))
    = ["C"; "A"; "B"].
Proof.
  rewrite (rescoring_keeps_table_order [asset_A] [asset_C] asset_B
             (Asset.mk "B" "M" 55 301 90 0.0625 "Green")).
  - reflexivity.
  - unfold known_levels, known_level.
    repeat (apply Forall_cons; split; [simpl; auto|]). constructor.
  - reflexivity.
  - reflexivity.
Defined.

(** * Properties of the file reader *)

Section Lines.
Implicit Types (s a b : string) (c ch : ascii).

Lemma append_String c s b : String c s +:+ b = String c (s +:+ b).
Proof. reflexivity. Qed.

Lemma split_lines_nonempty s : JsString.split_lines s <> [].
Proof.
  induction s as [|c s IH]; simpl; [discriminate|].
  destruct (Ascii.eqb c "010"); [discriminate|].
  destruct s as [|d s'].
  - discriminate.
  - destruct (Ascii.eqb c "013" && Ascii.eqb d "010"); [discriminate|].
    destruct (JsString.split_lines (String d s')); [discriminate|discriminate].
Qed.

Lemma cons_head_length c (parts : list string) :
  parts <> [] -> List.length (JsString.cons_head c parts) = List.length parts.
Proof. destruct parts; [congruence|reflexivity]. Qed.

Lemma split_lines_no_line_feed s :
  contains_char "010" s = false -> JsString.split_lines s = [s].
Proof.
  induction s as [|c s IH]; [reflexivity|].
  cbn [contains_char]. intros [Hc Hs]%orb_false_iff.
  cbn [JsString.split_lines]. rewrite Hc.
  destruct s as [|d s'].
  - reflexivity.
  - cbn [contains_char] in Hs. apply orb_false_iff in Hs as [Hd Hs'].
    rewrite Hd, andb_false_r. rewrite IH; [reflexivity|].
    cbn [contains_char]. rewrite Hd. exact Hs'.
Qed.

Lemma split_lines_line_feed s :
  contains_char "010" s = true ->
  exists line0 line1 more, JsString.split_lines s = line0 :: line1 :: more.
Proof.
  induction s as [|c s IH]; [discriminate|].
  cbn [contains_char JsString.split_lines]. intros Hs.
  destruct (Ascii.eqb c "010") eqn:Hc.
  - destruct (JsString.split_lines s) as [|l1 more] eqn:Hl;
      [exfalso; exact (split_lines_nonempty s Hl)|eauto].
  - simpl in Hs. destruct s as [|d s']; [discriminate|].
    destruct (Ascii.eqb c "013" && Ascii.eqb d "010").
    + destruct (JsString.split_lines s') as [|l1 more] eqn:Hl;
        [exfalso; exact (split_lines_nonempty s' Hl)|eauto].
    + destruct (IH Hs) as (l0 & l1 & more & ->). simpl. eauto.
Qed.

(** A line feed after a line that holds none and does not end in a
    carriage return ends that line. *)
Lemma split_lines_append a b :
  contains_char "010" a = false ->
  (forall a', a <> a' +:+ String "013" EmptyString) ->
  JsString.split_lines (a +:+ String "010" b) = a :: JsString.split_lines b.
Proof.
  induction a as [|c a IH]; intros Hlf Hcr; [reflexivity|].
  cbn [contains_char] in Hlf. apply orb_false_iff in Hlf as [Hc Hlf].
  rewrite append_String. cbn [JsString.split_lines]. rewrite Hc.
  destruct a as [|d a'].
  - simpl. destruct (Ascii.eqb_spec c "013") as [->|Hne]; [|reflexivity].
    exfalso. apply (Hcr EmptyString). reflexivity.
  - rewrite append_String.
    assert (Hd : Ascii.eqb d "010" = false).
    { cbn [contains_char] in Hlf. apply orb_false_iff in Hlf as [Hd _]. exact Hd. }
    rewrite Hd, andb_false_r. rewrite <- append_String.
    rewrite IH; [reflexivity|exact Hlf|].
    intros a'' Heq. apply (Hcr (String c a'')). rewrite Heq. reflexivity.
Qed.

Lemma trimEnd_append_char s ch :
  JsString.is_white_space ch = false ->
  JsString.trimEnd (s +:+ String ch EmptyString) = s +:+ String ch EmptyString.
Proof.
  intros Hch. induction s as [|c s IH]; simpl.
  - rewrite Hch. reflexivity.
  - rewrite IH. destruct s; reflexivity.
Qed.

Lemma trimStart_no_line_feed s :
  contains_char "010" s = false ->
  contains_char "010" (JsString.trimStart s) = false.
Proof.
  induction s as [|c s IH]; [reflexivity|]. intros Hs. simpl.
  destruct (JsString.is_white_space c); [|exact Hs].
  apply IH. cbn [contains_char] in Hs. apply orb_false_iff in Hs as [_ Hs].
  exact Hs.
Qed.

Lemma trimEnd_no_line_feed s :
  contains_char "010" s = false ->
  contains_char "010" (JsString.trimEnd s) = false.
Proof.
  induction s as [|c s IH]; [reflexivity|].
  cbn [contains_char]. intros [Hc Hs]%orb_false_iff. simpl.
  specialize (IH Hs). destruct (JsString.trimEnd s) as [|d t].
  - destruct (JsString.is_white_space c); [reflexivity|].
    cbn [contains_char]. rewrite Hc. reflexivity.
  - cbn [contains_char] in *. rewrite Hc. exact IH.
Qed.
End Lines.

(** X15: a file whose text, once trimmed, holds no line feed (an empty
    file, blank space, a header alone, even when a line feed follows it) is
    answered by the message that a header and a data row are needed, and
    by nothing else; and this message appears for no other file. *)
Theorem csv_needs_two_lines (text : string) (st : AppState) :
  let st' := fst (handleCsvUpload (Some (onload (Some text))) st) in
  (contains_char "010" (JsString.trim text) = false ->
   st' = setCsvError csv_lines_message st)
  /\ (contains_char "010" text = false ->
      st' = setCsvError csv_lines_message st)
  /\ (csvError st' = csv_lines_message
      <-> contains_char "010" (JsString.trim text) = false).
Proof.
  intros st'.
  assert (Hone : contains_char "010" (JsString.trim text) = false ->
                 st' = setCsvError csv_lines_message st).
  { intros Hlf. subst st'. unfold handleCsvUpload, reader_settle, reader_onload.
    rewrite (split_lines_no_line_feed _ Hlf). reflexivity. }
  split_and!.
  - exact Hone.
  - intros Hlf. apply Hone. unfold JsString.trim.
    apply trimEnd_no_line_feed, trimStart_no_line_feed, Hlf.
  - split.
    + intros Hmsg.
      destruct (contains_char "010" (JsString.trim text)) eqn:Hlf; [|reflexivity].
      exfalso. destruct (split_lines_line_feed _ Hlf) as (l0 & l1 & more & Hl).
      subst st'. rewrite (handleCsvUpload_onload text l0 l1 more st Hl) in Hmsg.
      cbv zeta in Hmsg. destruct (csv_rejects _); vm_compute in Hmsg;
        discriminate Hmsg.
    + intros Hlf. rewrite (Hone Hlf). reflexivity.
Qed.

Lemma csv_needs_two_lines_witness :
  fst (handleCsvUpload
         (Some (onload (Some ("UDI,Type,Torque [Nm]" +:+ LF))))
         state_ABC_resubmit_B)
    = setCsvError csv_lines_message state_ABC_resubmit_B.
Proof.
  apply (proj1 (csv_needs_two_lines ("UDI,Type,Torque [Nm]" +:+ LF)
                  state_ABC_resubmit_B)).
  vm_compute. reflexivity.
Defined.

Section Cells.
Implicit Types (s c : string) (cells : list string) (ch : ascii).

Lemma split_comma_no_comma c :
  contains_char "," c = false -> JsString.split_comma c = [c].
Proof.
  induction c as [|x c IH]; [reflexivity|].
  cbn [contains_char]. intros [Hx Hc]%orb_false_iff.
  cbn [JsString.split_comma]. rewrite Hx, (IH Hc). reflexivity.
Qed.

Lemma split_comma_append c s :
  contains_char "," c = false ->
  JsString.split_comma (c +:+ String "," s) = c :: JsString.split_comma s.
Proof.
  induction c as [|x c IH]; [reflexivity|].
  cbn [contains_char]. intros [Hx Hc]%orb_false_iff.
  rewrite append_String. cbn [JsString.split_comma]. rewrite Hx, (IH Hc).
  reflexivity.
Qed.

(** Splitting undoes joining when no cell holds a comma. *)
Lemma split_comma_join cells :
  cells <> [] ->
  Forall (fun c => contains_char "," c = false) cells ->
  JsString.split_comma (join_comma cells) = cells.
Proof.
  intros Hne Hcells. induction Hcells as [|c cells Hc Hcells IH]; [congruence|].
  destruct cells as [|c' cells].
  - apply split_comma_no_comma, Hc.
  - cbn [join_comma]. rewrite split_comma_append by exact Hc.
    f_equal. apply IH. discriminate.
Qed.

Lemma contains_char_append ch a b :
  contains_char ch (a +:+ b) = contains_char ch a || contains_char ch b.
Proof.
  induction a as [|x a IH]; [reflexivity|].
  rewrite append_String. cbn [contains_char]. rewrite IH, orb_assoc. reflexivity.
Qed.

Lemma contains_char_quote_cell ch c :
  Ascii.eqb "034" ch = false ->
  contains_char ch (quote_cell c) = contains_char ch c.
Proof.
  intros Hq. unfold quote_cell. cbn [contains_char].
  rewrite contains_char_append. cbn [contains_char]. rewrite Hq. simpl.
  rewrite !orb_false_r. reflexivity.
Qed.

Lemma drop_last_quote_append c :
  JsString.drop_last_quote (c +:+ String "034" EmptyString) = c.
Proof.
  induction c as [|x c IH]; [reflexivity|].
  rewrite append_String. cbn [JsString.drop_last_quote]. rewrite IH.
  destruct c; reflexivity.
Qed.

(** A quoted cell is read back as it was written, inner blanks and inner
    quotes included. *)
Lemma read_quote_cell c :
  JsString.strip_quotes (JsString.trim (quote_cell c)) = c.
Proof.
  unfold JsString.trim, quote_cell.
  change (JsString.trimStart (String "034" (c +:+ String "034" EmptyString)))
    with (String "034" c +:+ String "034" EmptyString).
  rewrite trimEnd_append_char by reflexivity.
  rewrite append_String. cbn [JsString.strip_quotes]. simpl Ascii.eqb. cbv iota.
  apply drop_last_quote_append.
Qed.

Lemma csv_cells_join cells :
  cells <> [] ->
  Forall (fun c => contains_char "," c = false) cells ->
  csv_cells (join_comma cells)
    = (fun c => JsString.strip_quotes (JsString.trim c)) <$> cells.
Proof.
  intros Hne Hcells. unfold csv_cells. rewrite split_comma_join by assumption.
  reflexivity.
Qed.

Lemma csv_cells_quoted_line cells :
  cells <> [] ->
  Forall (fun c => contains_char "," c = false) cells ->
  csv_cells (quoted_line cells) = cells.
Proof.
  intros Hne Hcells. unfold quoted_line. rewrite csv_cells_join.
  - rewrite <- list_fmap_compose. rewrite <- (list_fmap_id cells) at 2.
    apply list_fmap_ext. intros i c _. apply read_quote_cell.
  - destruct cells; [congruence|discriminate].
  - apply Forall_fmap. eapply Forall_impl; [exact Hcells|].
    intros c Hc. unfold compose.
    rewrite contains_char_quote_cell by reflexivity. exact Hc.
Qed.
End Cells.

(** X16: a line is read by splitting it at its commas and removing, from
    each piece, the blanks around it and then one quote at either end, when
    no cell that was joined holds a comma. A line written as quoted cells
    is therefore read back as exactly those cells, with the blanks and
    quotes inside them. *)
Theorem csv_line_round_trip (cells : list string) :
  cells <> [] ->
  Forall (fun c => contains_char "," c = false) cells ->
  csv_cells (join_comma cells)
    = (fun c => JsString.strip_quotes (JsString.trim c)) <$> cells
  /\ csv_cells (quoted_line cells) = cells.
Proof.
  intros Hne Hcells. split;
    [apply csv_cells_join|apply csv_cells_quoted_line]; assumption.
Qed.

Lemma csv_line_round_trip_witness :
  csv_cells (quoted_line ["UDI"; " Tool wear [min] "; "Type"])
    = ["UDI"; " Tool wear [min] "; "Type"].
Proof.
  refine (proj2 (csv_line_round_trip ["UDI"; " Tool wear [min] "; "Type"] _ _)).
  - discriminate.
  - repeat (apply Forall_cons; split; [reflexivity|]). constructor.
Defined.

Section Files.
Implicit Types (s a b c : string) (cells : list string) (ch : ascii)
               (columns : list (string * string)).

Lemma append_assoc a b c : (a +:+ b) +:+ c = a +:+ (b +:+ c).
Proof.
  induction a as [|x a IH]; [reflexivity|].
  rewrite !append_String, IH. reflexivity.
Qed.

Lemma append_last_inj a b (x y : ascii) :
  a +:+ String x EmptyString = b +:+ String y EmptyString -> x = y.
Proof.
  revert b. induction a as [|u a IH]; intros [|v b] Heq; cbn in Heq.
  - injection Heq as Heq. exact Heq.
  - destruct b; cbn in Heq; discriminate.
  - destruct a; cbn in Heq; discriminate.
  - injection Heq as _ Heq. apply (IH b Heq).
Qed.

Lemma contains_char_join ch cells :
  Ascii.eqb "," ch = false ->
  Forall (fun c => contains_char ch c = false) cells ->
  contains_char ch (join_comma cells) = false.
Proof.
  intros Hch. induction 1 as [|c cells Hc _ IH]; [reflexivity|].
  destruct cells as [|c' cells]; [exact Hc|].
  change (join_comma (c :: c' :: cells))
    with (c +:+ String "," (join_comma (c' :: cells))).
  rewrite contains_char_append. cbn [contains_char].
  rewrite Hc, Hch, IH. reflexivity.
Qed.

Lemma quoted_line_starts cells :
  cells <> [] -> exists t, quoted_line cells = String "034" t.
Proof.
  destruct cells as [|c [|c' cells]]; [congruence|..]; intros _; simpl; eauto.
Qed.

Lemma quoted_line_ends cells :
  cells <> [] ->
  exists init, quoted_line cells = init +:+ String "034" EmptyString.
Proof.
  unfold quoted_line. induction cells as [|c cells IH]; [congruence|]. intros _.
  destruct cells as [|c' cells].
  - exists (String "034" c). reflexivity.
  - destruct IH as [init Hinit]; [discriminate|].
    exists (quote_cell c +:+ String "," init).
    change (join_comma (quote_cell <$> c :: c' :: cells))
      with (quote_cell c +:+ String "," (join_comma (quote_cell <$> c' :: cells))).
    rewrite Hinit, append_assoc. reflexivity.
Qed.

Lemma quoted_line_no_line_feed cells :
  Forall writable_cell cells -> contains_char "010" (quoted_line cells) = false.
Proof.
  intros Hcells. apply contains_char_join; [reflexivity|].
  apply Forall_fmap. eapply Forall_impl; [exact Hcells|].
  intros c [_ Hc]. unfold compose.
  rewrite contains_char_quote_cell by reflexivity. exact Hc.
Qed.

Lemma trim_between_quotes a b t init :
  a = String "034" t -> b = init +:+ String "034" EmptyString ->
  JsString.trim (a +:+ String "010" b) = a +:+ String "010" b.
Proof.
  intros -> ->. unfold JsString.trim. rewrite append_String.
  assert (Hstart : forall s, JsString.trimStart (String "034" s) = String "034" s)
    by reflexivity.
  rewrite Hstart.
  replace (String "034" (t +:+ String "010" (init +:+ String "034" EmptyString)))
    with (String "034" (t +:+ String "010" init) +:+ String "034" EmptyString).
  - apply trimEnd_append_char. reflexivity.
  - rewrite append_String. f_equal. rewrite append_assoc. reflexivity.
Qed.

(** The two lines of a written file are found again. *)
Lemma split_lines_quoted_file columns :
  columns <> [] ->
  Forall writable_cell (fst <$> columns) ->
  Forall writable_cell (snd <$> columns) ->
  JsString.split_lines (JsString.trim (quoted_file columns))
    = [quoted_line (fst <$> columns); quoted_line (snd <$> columns)].
Proof.
  intros Hne Hlabels Hvalues. unfold quoted_file.
  assert (Hl : fst <$> columns <> []) by (destruct columns; [congruence|discriminate]).
  assert (Hv : snd <$> columns <> []) by (destruct columns; [congruence|discriminate]).
  destruct (quoted_line_starts _ Hl) as [t Ht].
  destruct (quoted_line_ends _ Hl) as [hinit Hhinit].
  destruct (quoted_line_ends _ Hv) as [init Hinit].
  rewrite (trim_between_quotes _ _ t init Ht Hinit).
  rewrite split_lines_append.
  - rewrite split_lines_no_line_feed by (apply quoted_line_no_line_feed, Hvalues).
    reflexivity.
  - apply quoted_line_no_line_feed, Hlabels.
  - intros a' Heq. rewrite Hhinit in Heq.
    apply append_last_inj in Heq. discriminate Heq.
Qed.

Lemma writable_no_comma cells :
  Forall writable_cell cells ->
  Forall (fun c => contains_char "," c = false) cells.
Proof.
  intros Hcells. eapply Forall_impl; [exact Hcells|]. intros c [Hc _]. exact Hc.
Qed.

(** Reading a written file is looking up its columns by label. *)
Lemma read_quoted_file columns (st : AppState) :
  columns <> [] ->
  Forall writable_cell (fst <$> columns) ->
  Forall writable_cell (snd <$> columns) ->
  let get := csv_get (fst <$> columns) (snd <$> columns) in
  handleCsvUpload (Some (onload (Some (quoted_file columns)))) st =
    (if csv_rejects get then setCsvError csv_columns_message st
     else setForm (fun _ => csv_form get) (setCsvError EmptyString st), []).
Proof.
  intros Hne Hlabels Hvalues.
  rewrite (handleCsvUpload_onload _ _ _ []
             st (split_lines_quoted_file columns Hne Hlabels Hvalues)).
  rewrite !csv_cells_quoted_line;
    try (apply writable_no_comma; assumption);
    try (destruct columns; [congruence|discriminate]).
  reflexivity.
Qed.

Lemma csv_get_cons (l x : string) (header row : list string) (c : string) :
  csv_get (l :: header) (x :: row) c
    = if String.eqb l c then JStr x else csv_get header row c.
Proof.
  unfold csv_get. simpl. destruct (String.eqb l c); [reflexivity|].
  destruct (JsString.indexOf header c); reflexivity.
Qed.

Lemma csv_get_column columns (c v : string) :
  NoDup (fst <$> columns) -> (c, v) ∈ columns ->
  csv_get (fst <$> columns) (snd <$> columns) c = JStr v.
Proof.
  induction columns as [|[l x] columns IH]; intros Hnd Hin.
  - apply elem_of_nil in Hin. contradiction.
  - rewrite !fmap_cons, csv_get_cons. simpl.
    apply NoDup_cons in Hnd as [Hl Hnd].
    apply elem_of_cons in Hin as [Heq|Hin].
    + injection Heq as -> ->. rewrite String.eqb_refl. reflexivity.
    + destruct (String.eqb_spec l c) as [->|Hne]; [|apply IH; assumption].
      exfalso. apply Hl. apply list_elem_of_fmap. exists (c, v). auto.
Qed.

Lemma csv_get_no_column columns (c : string) :
  c ∉ fst <$> columns ->
  csv_get (fst <$> columns) (snd <$> columns) c = JNull.
Proof. apply csv_get_missing. Qed.

(** What [onload] writes depends on the lookups of [read_columns] only. *)
Lemma onload_outcome_ext (get1 get2 : string -> jsval) :
  (forall c, c ∈ read_columns -> get1 c = get2 c) ->
  csv_rejects get1 = csv_rejects get2 /\ csv_form get1 = csv_form get2.
Proof.
  intros Hget.
  assert (Hat : forall c, JsString.includes read_columns c = true -> get1 c = get2 c).
  { intros c Hc. apply Hget. unfold JsString.includes in Hc.
    apply existsb_exists in Hc as (c' & Hin & Heq).
    apply String.eqb_eq in Heq. subst c'. apply list_elem_of_In, Hin. }
  unfold csv_rejects, csv_form, csv_uid, csv_type.
  rewrite !(Hat "UDI"), !(Hat "uid"), !(Hat "UID"),
    !(Hat "Air temperature [K]"), !(Hat "Process temperature [K]"),
    !(Hat "Rotational speed [rpm]"), !(Hat "Torque [Nm]"),
    !(Hat "Tool wear [min]"), !(Hat "Type") by reflexivity.
  split; reflexivity.
Qed.
End Files.

(** X17: columns are found by their label, wherever they stand: two
    files written with the same labelled columns in different orders, one
    of them with further columns that [onload] does not look up, are
    loaded with the same outcome, be it the validation message or the new
    form. (No label occurs twice, and no cell holds a comma or a line
    feed.) *)
Theorem csv_columns_by_label
        (columns columns' extra : list (string * string)) (st : AppState) :
  columns <> [] ->
  columns' ≡ₚ columns ++ extra ->
  NoDup (fst <$> columns') ->
  Forall writable_cell (fst <$> columns') ->
  Forall writable_cell (snd <$> columns') ->
  Forall (fun p => fst p ∉ read_columns) extra ->
  handleCsvUpload (Some (onload (Some (quoted_file columns')))) st
    = handleCsvUpload (Some (onload (Some (quoted_file columns)))) st.
Proof.
  intros Hne Hperm Hnd Hlabels' Hvalues' Hextra.
  assert (Hne' : columns' <> []).
  { intros ->. apply Permutation_nil_l in Hperm.
    destruct columns; [congruence|discriminate]. }
  assert (Hlabels : Forall writable_cell (fst <$> columns)).
  { rewrite Hperm, fmap_app in Hlabels'. apply Forall_app in Hlabels'. tauto. }
  assert (Hvalues : Forall writable_cell (snd <$> columns)).
  { rewrite Hperm, fmap_app in Hvalues'. apply Forall_app in Hvalues'. tauto. }
  assert (Hnd0 : NoDup (fst <$> columns)).
  { rewrite Hperm, fmap_app in Hnd. apply NoDup_app in Hnd. tauto. }
  rewrite (read_quoted_file columns' st Hne' Hlabels' Hvalues').
  rewrite (read_quoted_file columns st Hne Hlabels Hvalues).
  cbv zeta.
  destruct (onload_outcome_ext
              (csv_get (fst <$> columns') (snd <$> columns'))
              (csv_get (fst <$> columns) (snd <$> columns))) as [-> ->];
    [|reflexivity].
  intros c Hc.
  destruct (decide (c ∈ fst <$> columns)) as [Hin|Hout].
  - apply list_elem_of_fmap in Hin as ([c' v] & Hc' & Hin). simpl in Hc'. subst c'.
    rewrite (csv_get_column columns c v Hnd0 Hin).
    apply csv_get_column; [exact Hnd|].
    rewrite Hperm. apply elem_of_app. left. exact Hin.
  - rewrite (csv_get_no_column columns c Hout).
    apply csv_get_no_column. rewrite Hperm, fmap_app.
    intros [Hin|Hin]%elem_of_app; [exact (Hout Hin)|].
    apply list_elem_of_fmap in Hin as (p & -> & Hp).
    rewrite Forall_forall in Hextra. exact (Hextra p Hp Hc).
Qed.

Lemma csv_columns_by_label_witness :
  handleCsvUpload
    (Some (onload (Some (quoted_file
       [ ("Type", "M"); ("Torque [Nm]", "42.75"); ("Product ID", "M14860");
         ("Tool wear [min]", "0"); ("UDI", "1");
         ("Rotational speed [rpm]", "1551"); ("Air temperature [K]", "298.5");
         ("Process temperature [K]", "308.25") ]))))
    state_ABC_resubmit_B
  = (mkApp "single" (Form.mk "1" 298.5 308.25 1551 42.75 0 "M") None false
           EmptyString EmptyString [asset_A; asset_B; asset_C], []).
Proof.
  rewrite (csv_columns_by_label
             [ ("UDI", "1"); ("Type", "M"); ("Air temperature [K]", "298.5");
               ("Process temperature [K]", "308.25");
               ("Rotational speed [rpm]", "1551"); ("Torque [Nm]", "42.75");
               ("Tool wear [min]", "0") ]
             _ [ ("Product ID", "M14860") ]).
  - vm_compute. reflexivity.
  - discriminate.
  - apply (bool_decide_unpack _). vm_compute. reflexivity.
  - apply (bool_decide_unpack _). vm_compute. reflexivity.
  - repeat (apply Forall_cons; split; [split; reflexivity|]). constructor.
  - repeat (apply Forall_cons; split; [split; reflexivity|]). constructor.
  - apply Forall_cons. split; [|constructor].
    apply (bool_decide_unpack _). vm_compute. reflexivity.
Defined.

(** * Further properties of the derived features *)

Section DerivedFeatures.
Implicit Types (x y : float).

Lemma mul_is_nan x y :
  PrimFloat.is_nan x = true \/ PrimFloat.is_nan y = true ->
  PrimFloat.is_nan (x * y) = true.
Proof.
  rewrite !is_nan_spec, mul_spec. unfold SF64mul, SFmul.
  destruct (Prim2SF x), (Prim2SF y); intros [H|H];
    try discriminate H; reflexivity.
Qed.

Lemma sub_is_nan x y :
  PrimFloat.is_nan x = true \/ PrimFloat.is_nan y = true ->
  PrimFloat.is_nan (x - y) = true.
Proof.
  rewrite !is_nan_spec, sub_spec. unfold SF64sub, SFsub.
  destruct (Prim2SF x), (Prim2SF y); intros [H|H];
    try discriminate H; reflexivity.
Qed.

Lemma div_is_nan x y :
  PrimFloat.is_nan x = true \/ PrimFloat.is_nan y = true ->
  PrimFloat.is_nan (x / y) = true.
Proof.
  rewrite !is_nan_spec, div_spec. unfold SF64div, SFdiv.
  destruct (Prim2SF x), (Prim2SF y); intros [H|H];
    try discriminate H; reflexivity.
Qed.

(** Zero times a finite number is zero. *)
Lemma mul_is_zero x y :
  (PrimFloat.is_zero x = true /\ PrimFloat.is_finite y = true)
  \/ (PrimFloat.is_finite x = true /\ PrimFloat.is_zero y = true) ->
  PrimFloat.is_zero (x * y) = true.
Proof.
  rewrite !is_zero_spec, !is_finite_spec, mul_spec. unfold SF64mul, SFmul.
  destruct (Prim2SF x), (Prim2SF y); intros [[H1 H2]|[H1 H2]];
    try discriminate H1; try discriminate H2; reflexivity.
Qed.

(** A number other than zero and NaN, divided by zero, is infinite; zero
    divided by zero is NaN. *)
Lemma div_by_zero_cases x y :
  PrimFloat.is_zero y = true ->
  PrimFloat.is_nan (x / y)
    = PrimFloat.is_nan x || PrimFloat.is_zero x.
Proof.
  rewrite !is_zero_spec, !is_nan_spec, div_spec. unfold SF64div, SFdiv.
  destruct (Prim2SF y); try discriminate. intros _.
  destruct (Prim2SF x); reflexivity.
Qed.
End DerivedFeatures.

(** X18: for a machine that stands still (a speed of zero with a finite
    torque, or a torque of zero with a finite speed) power is zero and
    temperature-power is never finite: it is NaN when the temperature
    difference is itself zero or NaN, and an infinity otherwise. *)
Theorem stopped_machine_features (f : Form.t) :
  (JsNumber.is_zero (Form.rotational_speed_rpm f) = true
   /\ JsNumber.isFinite (Form.torque_nm f) = true)
  \/ (JsNumber.isFinite (Form.rotational_speed_rpm f) = true
      /\ JsNumber.is_zero (Form.torque_nm f) = true) ->
  let p := build_payload f in
  JsNumber.is_zero (Payload.power p) = true
  /\ JsNumber.isFinite (Payload.temperature_power p) = false
  /\ JsNumber.isNaN (Payload.temperature_power p)
     = JsNumber.isNaN (Payload.temperature_difference p)
       || JsNumber.is_zero (Payload.temperature_difference p).
Proof.
  intros Hstop p.
  assert (Hzero : JsNumber.is_zero (Payload.power p) = true)
    by (apply mul_is_zero, Hstop).
  split_and!.
  - exact Hzero.
  - apply div_by_zero_not_finite, Hzero.
  - apply div_by_zero_cases, Hzero.
Qed.

Lemma stopped_machine_features_witness :
  JsNumber.is_zero (Payload.power (build_payload (form state_zero_speed))) = true
  /\ JsNumber.isFinite
       (Payload.temperature_power (build_payload (form state_zero_speed))) = false.
Proof.
  destruct (stopped_machine_features (form state_zero_speed)) as (Hp & Ht & _).
  - left. split; vm_compute; reflexivity.
  - split; assumption.
Defined.

(** X19: a field that is NaN, as an emptied input leaves it, spreads to
    every feature derived from it: from speed or torque to power,
    power-wear and temperature-power, from a temperature to the temperature
    difference and temperature-power, from tool wear to power-wear. *)
Theorem nan_spreads_to_features (f : Form.t) :
  let p := build_payload f in
  (JsNumber.isNaN (Form.rotational_speed_rpm f) = true
   \/ JsNumber.isNaN (Form.torque_nm f) = true ->
   JsNumber.isNaN (Payload.power p) = true
   /\ JsNumber.isNaN (Payload.power_wear p) = true
   /\ JsNumber.isNaN (Payload.temperature_power p) = true)
  /\ (JsNumber.isNaN (Form.process_temperature_k f) = true
      \/ JsNumber.isNaN (Form.air_temperature_k f) = true ->
      JsNumber.isNaN (Payload.temperature_difference p) = true
      /\ JsNumber.isNaN (Payload.temperature_power p) = true)
  /\ (JsNumber.isNaN (Form.tool_wear_min f) = true ->
      JsNumber.isNaN (Payload.power_wear p) = true).
Proof.
  intros p. split_and!.
  - intros Hnan.
    assert (Hpower : JsNumber.isNaN (Payload.power p) = true)
      by (apply mul_is_nan, Hnan).
    split_and!; [exact Hpower|apply mul_is_nan|apply div_is_nan]; auto.
  - intros Hnan.
    assert (Htd : JsNumber.isNaN (Payload.temperature_difference p) = true)
      by (apply sub_is_nan, Hnan).
    split; [exact Htd|apply div_is_nan; auto].
  - intros Hnan. apply mul_is_nan. auto.
Qed.

Lemma nan_spreads_to_features_witness :
  JsNumber.isNaN
    (Payload.temperature_power
       (build_payload (form (handleChange "torque_nm" EmptyString initial_state))))
  = true.
Proof.
  destruct (nan_spreads_to_features
              (form (handleChange "torque_nm" EmptyString initial_state)))
    as (H & _).
  apply H. right. vm_compute. reflexivity.
Defined.

(** X20: loading a file either leaves the form as it was or replaces it
    by a complete one: a machine id that is not empty, five numbers none
    of which is NaN, a type that is H, L or M, and no CSV error. *)
Theorem loaded_form_is_complete (text : option string) (st : AppState) :
  let st' := fst (handleCsvUpload (Some (onload text)) st) in
  form st' = form st
  \/ (Form.uid (form st') <> EmptyString
      /\ JsNumber.isNaN (Form.air_temperature_k (form st')) = false
      /\ JsNumber.isNaN (Form.process_temperature_k (form st')) = false
      /\ JsNumber.isNaN (Form.rotational_speed_rpm (form st')) = false
      /\ JsNumber.isNaN (Form.torque_nm (form st')) = false
      /\ JsNumber.isNaN (Form.tool_wear_min (form st')) = false
      /\ (Form.type (form st') = "H" \/ Form.type (form st') = "L"
          \/ Form.type (form st') = "M")
      /\ csvError st' = EmptyString).
Proof.
  intros st'. subst st'. unfold handleCsvUpload, reader_settle, reader_onload.
  cbn [fst]. destruct text as [text|]; [|left; reflexivity].
  destruct (JsString.split_lines (JsString.trim text)) as [|line0 [|line1 more]];
    [left; reflexivity..|].
  set (get := csv_get (csv_cells line0) (csv_cells line1)).
  destruct (csv_rejects get) eqn:Hrej; [left; reflexivity|]. right.
  unfold csv_rejects in Hrej.
  repeat (apply orb_false_iff in Hrej as [Hrej ?]).
  apply negb_false_iff in Hrej.
  cbn [form csvError setForm setCsvError csv_form Form.uid Form.type
       Form.air_temperature_k Form.process_temperature_k
       Form.rotational_speed_rpm Form.torque_nm Form.tool_wear_min].
  split_and!; try assumption; try reflexivity.
  - destruct (csv_uid get) as [| |[|c u]]; simpl in *; discriminate.
  - apply csv_type_normalised.
Qed.

(** X21: the risk dot of the single page has no fallback colour. Without
    a result the panel shows its note and no dot. With a result the dot is
    rendered with the colour looked up for the level: the colour of the
    level for Green, Yellow and Red, and for any other level (not the name
    of an inherited object member) an undefined colour. Whatever the
    result, the dot is never rendered in the grey that [riskColor] holds
    when there is no result. *)
Theorem risk_dot_has_no_fallback (r : Prediction.t) :
  PredictionPanel None = NoPredictionYet
  /\ risk_dot None = None
  /\ PredictionPanel (Some r)
       = PredictionShown (COLORS !! Prediction.risk_level r)
                         (Prediction.risk_level r) (pieData (Some r))
  /\ risk_dot (Some r) = Some (riskColor (Some r))
  /\ (known_level (Prediction.risk_level r) ->
      riskColor (Some r) = Some (color_or (Prediction.risk_level r) "#9e9e9e")
      /\ riskColor (Some r) <> Some "#9e9e9e"
      /\ risk_dot (Some r)
           = Some (Some (color_or (Prediction.risk_level r) "#9e9e9e")))
  /\ (Prediction.risk_level r ∉ Object_prototype_keys ->
      (riskColor (Some r) = None <-> ~ known_level (Prediction.risk_level r))
      /\ (risk_dot (Some r) = Some None
          <-> ~ known_level (Prediction.risk_level r)))
  /\ (forall result, risk_dot result <> Some (Some "#9e9e9e")).
Proof.
  assert (Hnone : COLORS !! Prediction.risk_level r = None
                  <-> ~ known_level (Prediction.risk_level r)).
  { split.
    - intros Hn [H|[H|H]]; rewrite H in Hn; vm_compute in Hn; discriminate Hn.
    - intros Hk. unfold known_level in Hk. unfold COLORS.
      rewrite !lookup_insert_ne by (intros Heq; apply Hk; rewrite <- Heq; auto).
      apply lookup_singleton_ne. intros Heq. apply Hk. rewrite <- Heq. auto. }
  split_and!; try reflexivity.
  - change (risk_dot (Some r)) with (Some (COLORS !! Prediction.risk_level r)).
    change (riskColor (Some r)) with (COLORS !! Prediction.risk_level r).
    unfold color_or.
    intros [H|[H|H]]; rewrite H; vm_compute; split_and!;
      (reflexivity || discriminate).
  - intros _.
    change (risk_dot (Some r)) with (Some (COLORS !! Prediction.risk_level r)).
    change (riskColor (Some r)) with (COLORS !! Prediction.risk_level r).
    split; [exact Hnone|]. rewrite <- Hnone. split; [|intros ->; reflexivity].
    intros Heq. injection Heq as Heq. exact Heq.
  - intros [r'|]; [|discriminate].
    change (risk_dot (Some r')) with (Some (COLORS !! Prediction.risk_level r')).
    intros Heq. injection Heq as Heq. unfold COLORS in Heq.
    repeat (apply lookup_insert_Some in Heq as [[_ Heq]|[_ Heq]];
            [discriminate Heq|]).
    apply lookup_singleton_Some in Heq as [_ Heq]. discriminate Heq.
Qed.
